(** * draftsync: manifest store, Pandoc invoker, sync commands and the
      Google Docs house-style payload

    A shallow embedding of the parts of draftsync that carry a contract:

    - [src/pandoc.js]: [buildMdToDocxArgs], [buildDocxToMdArgs], [runPandoc],
      [mdToDocx], [docxToMd], [convertMarkdownToDocx], [convertDocxToMarkdown];
    - [src/drive.js]: [readManifest], [writeManifest], [createDoc];
    - [src/cli.js]: [loadManifest], [saveManifest], [linkCommand],
      [pushCommand], [pullCommand];
    - [src/docs.js]: [buildHouseStyleRequests], [formatDocument].

    JavaScript values that reach the manifest are JSON values; the runtime
    services the code calls ([JSON.stringify], [JSON.parse], [fs.readFile],
    [fs.writeFile], [child_process], the clock) are modelled next to the code
    that uses them.  Strings are byte strings (the UTF-8 text that ends up in
    the files and on the terminal). *)

From Stdlib Require Import ZArith Ascii String List Lia Bool.
From Stdlib Require Import Decimal DecimalFacts DecimalPos DecimalZ.
From Stdlib Require Import Floats.PrimFloat.
From stdpp Require Import base option list strings gmap.
From stdpp Require Import sorting.

Open Scope string_scope.
Open Scope list_scope.

(** ** Characters and text *)

Abbreviation text := (list ascii).

Definition chars (s : string) : text := list_ascii_of_string s.
Definition str (t : text) : string := string_of_list_ascii t.

Definition LF : ascii := "010"%char.
Definition SP : ascii := " "%char.
Definition DQ : ascii := "034"%char.

Definition spaces (n : nat) : text := repeat SP n.

(** [Array.prototype.join] on pieces of text. *)
Fixpoint join_with (sep : text) (parts : list text) : text :=
  match parts with
  | [] => []
  | [p] => p
  | p :: ps => p ++ sep ++ join_with sep ps
  end.

(** ** JSON values

    Objects keep their members in property-enumeration order; a JavaScript
    object has each key once.  Numbers are the integers (the manifest holds
    no numbers at all; non-integral numbers are floating point and are left
    out of the value type). *)

#[local] Unset Elimination Schemes.
Inductive json : Type :=
| JNull
| JBool (b : bool)
| JNum (z : Z)
| JStr (s : string)
| JArr (items : list json)
| JObj (members : list (string * json)).
#[local] Set Elimination Schemes.

(** Structural induction that reaches the values nested in arrays and
    objects. *)
Section json_induction.
Variable P : json -> Prop.
Hypothesis Hnull : P JNull.
Hypothesis Hbool : forall b, P (JBool b).
Hypothesis Hnum : forall z, P (JNum z).
Hypothesis Hstr : forall s, P (JStr s).
Hypothesis Harr : forall items, Forall P items -> P (JArr items).
Hypothesis Hobj :
  forall members, Forall (fun kv => P (snd kv)) members -> P (JObj members).

Fixpoint json_ind (v : json) : P v :=
  match v with
  | JNull => Hnull
  | JBool b => Hbool b
  | JNum z => Hnum z
  | JStr s => Hstr s
  | JArr items =>
      Harr items
        ((fix all (l : list json) : Forall P l :=
            match l with
            | [] => List.Forall_nil P
            | x :: l' => List.Forall_cons P x l' (json_ind x) (all l')
            end) items)
  | JObj members =>
      Hobj members
        ((fix all (l : list (string * json)) : Forall (fun kv => P (snd kv)) l :=
            match l with
            | [] => List.Forall_nil _
            | kv :: l' => List.Forall_cons _ kv l' (json_ind (snd kv)) (all l')
            end) members)
  end.
End json_induction.

(** The values [JSON.stringify] and [JSON.parse] carry faithfully: integers
    that a JavaScript number holds exactly, and objects with each key once. *)
Definition safe_integer (z : Z) : bool := (Z.abs z <=? 9007199254740991)%Z.

Fixpoint serializable (v : json) : bool :=
  match v with
  | JNull | JBool _ | JStr _ => true
  | JNum z => safe_integer z
  | JArr items => forallb serializable items
  | JObj members =>
      bool_decide (NoDup (map fst members))
      && forallb (fun kv => serializable (snd kv)) members
  end.

(** ** [JSON.stringify(value, null, 2)] *)

Fixpoint print_uint (u : Decimal.uint) : text :=
  match u with
  | Nil => []
  | D0 u => "0"%char :: print_uint u
  | D1 u => "1"%char :: print_uint u
  | D2 u => "2"%char :: print_uint u
  | D3 u => "3"%char :: print_uint u
  | D4 u => "4"%char :: print_uint u
  | D5 u => "5"%char :: print_uint u
  | D6 u => "6"%char :: print_uint u
  | D7 u => "7"%char :: print_uint u
  | D8 u => "8"%char :: print_uint u
  | D9 u => "9"%char :: print_uint u
  end.

(** [Number.prototype.toString] on an integer: decimal digits, a leading
    minus sign for negatives. *)
Definition print_Z (z : Z) : text :=
  match Z.to_int z with
  | Decimal.Pos u => print_uint u
  | Decimal.Neg u => "-"%char :: print_uint u
  end.

Definition hex_digit (n : N) : ascii :=
  match n with
  | 0%N => "0" | 1%N => "1" | 2%N => "2" | 3%N => "3" | 4%N => "4"
  | 5%N => "5" | 6%N => "6" | 7%N => "7" | 8%N => "8" | 9%N => "9"
  | 10%N => "a" | 11%N => "b" | 12%N => "c" | 13%N => "d" | 14%N => "e"
  | _ => "f"
  end%char.

(** One character of [QuoteJSONString]: the two-character escapes, a
    [\u00xx] escape for the other control characters, the character itself
    otherwise. *)
Definition quote_char (c : ascii) : text :=
  let n := N_of_ascii c in
  if (n =? 8)%N then chars "\b"
  else if (n =? 9)%N then chars "\t"
  else if (n =? 10)%N then chars "\n"
  else if (n =? 12)%N then chars "\f"
  else if (n =? 13)%N then chars "\r"
  else if (n =? 34)%N then ["\"; "034"]%char
  else if (n =? 92)%N then ["\"; "\"]%char
  else if (n <? 32)%N then
    chars "\u00" ++ [hex_digit (n / 16); hex_digit (n mod 16)]
  else [c].

Definition quote (s : string) : text :=
  "034"%char :: flat_map quote_char (chars s) ++ ["034"%char].

(** [SerializeJSONProperty] with gap ["  "]; [ind] is the current
    indentation.  Empty arrays and objects print as [[]] and [{}]; the
    others put each element on a line of its own, two spaces deeper. *)
Fixpoint ser (ind : nat) (v : json) {struct v} : text :=
  match v with
  | JNull => chars "null"
  | JBool true => chars "true"
  | JBool false => chars "false"
  | JNum z => print_Z z
  | JStr s => quote s
  | JArr [] => chars "[]"
  | JArr items =>
      "["%char :: LF :: spaces (ind + 2)
        ++ join_with (","%char :: LF :: spaces (ind + 2)) (map (ser (ind + 2)) items)
        ++ LF :: spaces ind ++ ["]"%char]
  | JObj [] => chars "{}"
  | JObj members =>
      "{"%char :: LF :: spaces (ind + 2)
        ++ join_with (","%char :: LF :: spaces (ind + 2))
             (map (fun kv => quote (fst kv) ++ ":"%char :: SP :: ser (ind + 2) (snd kv))
                  members)
        ++ LF :: spaces ind ++ ["}"%char]
  end.

Definition JSON_stringify (v : json) : string := str (ser 0 v).

(** ** [JSON.parse] *)

(** The parser's two ways to fail: the text is not JSON ([SyntaxError] in
    JavaScript), or it goes on with something the value type above does not
    hold (the fraction or exponent of a number, a surrogate escape), where
    the model stops without saying what JavaScript would do. *)
Inductive parse_error := NotJSON | OutsideModel.

Inductive parsed (A : Type) : Type :=
| Got (a : A) (rest : text)
| Bad (e : parse_error).
Arguments Got {A} a rest.
Arguments Bad {A} e.

Definition is_ws (c : ascii) : bool :=
  let n := N_of_ascii c in
  ((n =? 32) || (n =? 9) || (n =? 10) || (n =? 13))%N.

Fixpoint skip_ws (s : text) : text :=
  match s with
  | c :: s' => if is_ws c then skip_ws s' else s
  | [] => []
  end.

Definition digit_of (c : ascii) : option (Decimal.uint -> Decimal.uint) :=
  match c with
  | "0" => Some D0 | "1" => Some D1 | "2" => Some D2 | "3" => Some D3
  | "4" => Some D4 | "5" => Some D5 | "6" => Some D6 | "7" => Some D7
  | "8" => Some D8 | "9" => Some D9 | _ => None
  end%char.

Fixpoint parse_digits (s : text) : Decimal.uint * text :=
  match s with
  | c :: s' =>
      match digit_of c with
      | Some d => let (u, r) := parse_digits s' in (d u, r)
      | None => (Nil, s)
      end
  | [] => (Nil, [])
  end.

(** JSON's integer part: at least one digit, and no digit after a leading
    zero. *)
Definition int_part_ok (u : Decimal.uint) : bool :=
  match u with
  | Nil => false
  | D0 Nil => true
  | D0 _ => false
  | _ => true
  end.

Definition starts_fraction (s : text) : bool :=
  match s with
  | c :: _ =>
      let n := N_of_ascii c in ((n =? 46) || (n =? 101) || (n =? 69))%N
  | [] => false
  end.

Definition parse_number (s : text) : parsed json :=
  let (neg, s1) :=
    match s with
    | c :: s' => if Ascii.eqb c "-" then (true, s') else (false, s)
    | [] => (false, s)
    end in
  let (u, r) := parse_digits s1 in
  if int_part_ok u then
    if starts_fraction r then Bad OutsideModel
    else Got (JNum (Z.of_int (if neg then Decimal.Neg u else Decimal.Pos u))) r
  else Bad NotJSON.

Definition hex_val (c : ascii) : option N :=
  let n := N_of_ascii c in
  if ((48 <=? n) && (n <=? 57))%N then Some (n - 48)%N
  else if ((97 <=? n) && (n <=? 102))%N then Some (n - 87)%N
  else if ((65 <=? n) && (n <=? 70))%N then Some (n - 55)%N
  else None.

(** The UTF-8 bytes of a code unit outside the surrogate range. *)
Definition utf8_of_code (n : N) : option text :=
  if (n <? 128)%N then Some [ascii_of_N n]
  else if (n <? 2048)%N then
    Some [ascii_of_N (192 + n / 64); ascii_of_N (128 + n mod 64)]
  else if ((55296 <=? n) && (n <=? 57343))%N then None
  else Some [ascii_of_N (224 + n / 4096);
             ascii_of_N (128 + (n / 64) mod 64);
             ascii_of_N (128 + n mod 64)].

(** The characters of a string literal after its opening quote, up to and
    including the closing quote. *)
Fixpoint parse_string_body (s : text) : parsed text :=
  match s with
  | [] => Bad NotJSON
  | c :: s' =>
      if (N_of_ascii c =? 34)%N then Got [] s'
      else if (N_of_ascii c =? 92)%N then
        match s' with
        | e :: s'' =>
            let simple (b : N) :=
              match parse_string_body s'' with
              | Got t r => Got (ascii_of_N b :: t) r
              | Bad er => Bad er
              end in
            match e with
            | "034"%char => simple 34%N
            | "\"%char => simple 92%N
            | "/"%char => simple 47%N
            | "b"%char => simple 8%N
            | "f"%char => simple 12%N
            | "n"%char => simple 10%N
            | "r"%char => simple 13%N
            | "t"%char => simple 9%N
            | "u"%char =>
                match s'' with
                | h1 :: h2 :: h3 :: h4 :: s4 =>
                    match hex_val h1, hex_val h2, hex_val h3, hex_val h4 with
                    | Some a, Some b, Some c', Some d =>
                        match utf8_of_code (4096 * a + 256 * b + 16 * c' + d)%N with
                        | Some bytes =>
                            match parse_string_body s4 with
                            | Got t r => Got (bytes ++ t) r
                            | Bad er => Bad er
                            end
                        | None => Bad OutsideModel
                        end
                    | _, _, _, _ => Bad NotJSON
                    end
                | _ => Bad NotJSON
                end
            | _ => Bad NotJSON
            end
        | [] => Bad NotJSON
        end
      else if (N_of_ascii c <? 32)%N then Bad NotJSON
      else
        match parse_string_body s' with
        | Got t r => Got (c :: t) r
        | Bad er => Bad er
        end
  end.

Definition parse_string (s : text) : parsed string :=
  match s with
  | c :: s' =>
      if Ascii.eqb c "034" then
        match parse_string_body s' with
        | Got t r => Got (str t) r
        | Bad e => Bad e
        end
      else Bad NotJSON
  | [] => Bad NotJSON
  end.

Fixpoint strip_prefix (p s : text) : option text :=
  match p, s with
  | [], _ => Some s
  | a :: p', b :: s' => if Ascii.eqb a b then strip_prefix p' s' else None
  | _ :: _, [] => None
  end.

Definition expect (lit : string) (v : json) (s : text) : parsed json :=
  match strip_prefix (chars lit) s with
  | Some r => Got v r
  | None => Bad NotJSON
  end.

(** [CreateDataProperty] on the member list: an existing key keeps its
    place and takes the new value, a new key goes last. *)
Fixpoint obj_set (o : list (string * json)) (k : string) (v : json)
  : list (string * json) :=
  match o with
  | [] => [(k, v)]
  | (k', v') :: o' =>
      if String.eqb k' k then (k', v) :: o' else (k', v') :: obj_set o' k v
  end.

Definition obj_of_members (ms : list (string * json)) : list (string * json) :=
  fold_left (fun o kv => obj_set o (fst kv) (snd kv)) ms [].

(** Recursive descent on the value grammar.  The fuel bounds the nesting of
    calls; [JSON_parse] below supplies more than any text can use. *)
Fixpoint parse_value (fuel : nat) (s : text) {struct fuel} : parsed json :=
  match fuel with
  | O => Bad OutsideModel
  | S n =>
      match skip_ws s with
      | [] => Bad NotJSON
      | c :: s' =>
          if Ascii.eqb c "n" then expect "null" JNull (c :: s')
          else if Ascii.eqb c "t" then expect "true" (JBool true) (c :: s')
          else if Ascii.eqb c "f" then expect "false" (JBool false) (c :: s')
          else if Ascii.eqb c "034" then
            match parse_string (c :: s') with
            | Got k r => Got (JStr k) r
            | Bad e => Bad e
            end
          else if Ascii.eqb c "[" then
            match skip_ws s' with
            | c' :: r =>
                if Ascii.eqb c' "]" then Got (JArr []) r
                else
                  match parse_elements n s' with
                  | Got vs r' => Got (JArr vs) r'
                  | Bad e => Bad e
                  end
            | [] => Bad NotJSON
            end
          else if Ascii.eqb c "{" then
            match skip_ws s' with
            | c' :: r =>
                if Ascii.eqb c' "}" then Got (JObj []) r
                else
                  match parse_members n s' with
                  | Got ms r' => Got (JObj (obj_of_members ms)) r'
                  | Bad e => Bad e
                  end
            | [] => Bad NotJSON
            end
          else parse_number (c :: s')
      end
  end
with parse_elements (fuel : nat) (s : text) {struct fuel} : parsed (list json) :=
  match fuel with
  | O => Bad OutsideModel
  | S n =>
      match parse_value n s with
      | Got v r =>
          match skip_ws r with
          | c :: r' =>
              if Ascii.eqb c "," then
                match parse_elements n r' with
                | Got vs r'' => Got (v :: vs) r''
                | Bad e => Bad e
                end
              else if Ascii.eqb c "]" then Got [v] r'
              else Bad NotJSON
          | [] => Bad NotJSON
          end
      | Bad e => Bad e
      end
  end
with parse_members (fuel : nat) (s : text) {struct fuel}
  : parsed (list (string * json)) :=
  match fuel with
  | O => Bad OutsideModel
  | S n =>
      match parse_string (skip_ws s) with
      | Got k r =>
          match skip_ws r with
          | c :: r1 =>
              if Ascii.eqb c ":" then
                match parse_value n r1 with
                | Got v r2 =>
                    match skip_ws r2 with
                    | c' :: r3 =>
                        if Ascii.eqb c' "," then
                          match parse_members n r3 with
                          | Got ms r4 => Got ((k, v) :: ms) r4
                          | Bad e => Bad e
                          end
                        else if Ascii.eqb c' "}" then Got [(k, v)] r3
                        else Bad NotJSON
                    | [] => Bad NotJSON
                    end
                | Bad e => Bad e
                end
              else Bad NotJSON
          | [] => Bad NotJSON
          end
      | Bad e => Bad e
      end
  end.

Definition JSON_parse (s : string) : parsed json :=
  let t := chars s in
  match parse_value (2 * length t + 2) t with
  | Got v r =>
      match skip_ws r with
      | [] => Got v []
      | _ => Bad NotJSON
      end
  | Bad e => Bad e
  end.

(** ** JavaScript values, errors and results *)

(** A value is a JSON value or [undefined]. *)
Abbreviation jsval := (option json).
Abbreviation undefined := (@None json).

(** [ToBoolean]. *)
Definition truthy (v : jsval) : bool :=
  match v with
  | None | Some JNull => false
  | Some (JBool b) => b
  | Some (JNum z) => negb (z =? 0)%Z
  | Some (JStr s) => negb (String.eqb s EmptyString)
  | Some (JArr _) | Some (JObj _) => true
  end.

(** Truthiness of an optional string argument ([null], [undefined] and the
    empty string are falsy). *)
Definition truthy_string (s : option string) : bool :=
  match s with
  | Some s => negb (String.eqb s EmptyString)
  | None => false
  end.

(** [ToString], as a template literal applies it. *)
Fixpoint to_String (v : json) : string :=
  match v with
  | JNull => "null"
  | JBool true => "true"
  | JBool false => "false"
  | JNum z => str (print_Z z)
  | JStr s => s
  | JArr items =>
      str (join_with [","%char]
             (map (fun x => match x with
                            | JNull => []
                            | _ => chars (to_String x)
                            end) items))
  | JObj _ => "[object Object]"
  end.

Inductive js_error :=
| SystemError (code : string) (message : string)
| SyntaxError (message : string)
| TypeError (message : string)
| Error (message : string)
| Unmodelled.

(** [error.code] and [error.message]. *)
Definition error_code (e : js_error) : option string :=
  match e with
  | SystemError code _ => Some code
  | _ => None
  end.

Definition error_message (e : js_error) : string :=
  match e with
  | SystemError _ m | SyntaxError m | TypeError m | Error m => m
  | Unmodelled => "value outside the JSON model"
  end.

Inductive outcome (A : Type) : Type :=
| Returned (a : A)
| Threw (e : js_error).
Arguments Returned {A} a.
Arguments Threw {A} e.

Fixpoint assoc (k : string) (ms : list (string * json)) : jsval :=
  match ms with
  | [] => None
  | (k', v) :: ms' => if String.eqb k' k then Some v else assoc k ms'
  end.

(** Property read [o[k]].  Reading from [null] or [undefined] throws; an
    object yields its own property; other values yield [undefined] here
    (members inherited from a prototype and the indexed members of arrays
    and strings are not modelled: the manifest is made of objects, and a file
    path is not a prototype member name). *)
Definition get_prop (o : jsval) (k : string) : outcome jsval :=
  match o with
  | None =>
      Threw (TypeError ("Cannot read properties of undefined (reading '" +:+ k +:+ "')"))
  | Some JNull =>
      Threw (TypeError ("Cannot read properties of null (reading '" +:+ k +:+ "')"))
  | Some (JObj ms) => Returned (assoc k ms)
  | Some _ => Returned None
  end.

(** Property write [o[k] = v] in strict mode (an ES module), giving the
    updated [o]: an object takes the member; a primitive refuses it; an array
    takes it as a named property, which [JSON.stringify] does not print
    (index keys are not modelled). *)
Definition set_prop (o : jsval) (k : string) (v : json) : outcome json :=
  match o with
  | None =>
      Threw (TypeError ("Cannot set properties of undefined (setting '" +:+ k +:+ "')"))
  | Some JNull =>
      Threw (TypeError ("Cannot set properties of null (setting '" +:+ k +:+ "')"))
  | Some (JObj ms) => Returned (JObj (obj_set ms k v))
  | Some (JArr items) => Returned (JArr items)
  | Some p =>
      Threw (TypeError ("Cannot create property '" +:+ k +:+ "' on " +:+ to_String p))
  end.

(** [String.prototype.includes]. *)
Fixpoint includes (hay needle : string) : bool :=
  String.prefix needle hay
  || match hay with
     | EmptyString => false
     | String _ hay' => includes hay' needle
     end.

(** [String.prototype.substring(n)]. *)
Definition substring_from (n : nat) (s : string) : string := str (drop n (chars s)).

Definition nl : string := String LF EmptyString.

(** ** The world outside the process

    What the operating system and the libraries answer.  A command reads
    these; it changes only the [state] below. *)

Inductive node := File (content : string) | Directory.

(** How an [fs.writeFile] ends once the file is open: it completes, or the
    device fails after [n] bytes have been written. *)
Inductive write_fault := Completes | FailsAfter (n : nat) (e : js_error).

Inductive exec_result :=
| ExecOk (stdout stderr : string)
| ExecFailed (message : string).

Inductive auth_client := OAuth2Client | StubbedAuth.

Record spawn_result := {
  status : option Z;
  spawn_stdout : option string;
  spawn_stderr : option string
}.

Record world := {
  write_fault_of : string -> write_fault;   (* by path *)
  mkdir_error : string -> option js_error;  (* [fs.mkdir(p, {recursive: true})] *)
  exec : string -> exec_result;             (* [child_process.exec] *)
  spawnSync : string -> list string -> spawn_result;
  now : string;                             (* [new Date().toISOString()] *)
  random36 : string;                        (* [Math.random().toString(36)] *)
  auth_result : auth_client;                (* from credentials.json and .token.json *)
  auth_lines : list string;                 (* what [authenticate] prints meanwhile *)
  json_error_message : string -> string;    (* the engine's SyntaxError text *)
  basename : string -> string -> string;    (* [path.basename(p, ext)] *)
  dirname : string -> string;               (* [path.dirname] *)
  path_join : string -> string -> string    (* [path.join] *)
}.

Inductive event :=
| EvReadFile (path : string)
| EvWriteFile (path : string) (data : string)
| EvMkdir (path : string)
| EvExec (command : string)
| EvSpawn (command : string) (args : list string)
| EvAuthenticate
| EvCreateDoc (title docxPath : string)
| EvFormatDocument (docId : string).

Inductive console_line := Log (line : string) | LogError (line : string).

Record state := {
  files : gmap string node;
  console : list console_line;
  trace : list event
}.

Definition with_files (f : gmap string node) (s : state) : state :=
  {| files := f; console := console s; trace := trace s |}.
Definition with_line (l : console_line) (s : state) : state :=
  {| files := files s; console := console s ++ [l]; trace := trace s |}.
Definition with_event (e : event) (s : state) : state :=
  {| files := files s; console := console s; trace := trace s ++ [e] |}.

(** ** Computations: state passing with exceptions *)

Definition M (A : Type) : Type := state -> state * outcome A.

Definition ret {A} (a : A) : M A := fun s => (s, Returned a).
Definition throw {A} (e : js_error) : M A := fun s => (s, Threw e).
Definition bind {A B} (m : M A) (k : A -> M B) : M B :=
  fun s =>
    match m s with
    | (s', Returned a) => k a s'
    | (s', Threw e) => (s', Threw e)
    end.
Definition try_catch {A} (m : M A) (handler : js_error -> M A) : M A :=
  fun s =>
    match m s with
    | (s', Returned a) => (s', Returned a)
    | (s', Threw e) => handler e s'
    end.
Definition lift {A} (o : outcome A) : M A := fun s => (s, o).

Declare Scope js_scope.
Delimit Scope js_scope with js.
Notation "'let!' x ':=' m 'in' k" := (bind m (fun x => k))
  (at level 10, x pattern, m at level 100, k at level 200, only parsing) : js_scope.
Notation "m ';;;' k" := (bind m (fun _ => k))
  (at level 100, k at level 200, right associativity) : js_scope.
Open Scope js_scope.

Definition console_log (line : string) : M unit :=
  fun s => (with_line (Log line) s, Returned tt).
Definition console_error (line : string) : M unit :=
  fun s => (with_line (LogError line) s, Returned tt).
Definition emit (e : event) : M unit :=
  fun s => (with_event e s, Returned tt).
Definition when (b : bool) (m : M unit) : M unit := if b then m else ret tt.

(** The exit status of a command run: an action that returns leaves the
    status at 0 (nothing sets [process.exitCode]); a rejected action is an
    unhandled rejection, which ends the process with status 1. *)
Definition exit_code {A} (o : outcome A) : Z :=
  match o with
  | Returned _ => 0
  | Threw _ => 1
  end.

(** ** File system *)

Definition fs_readFile (path : string) : M string :=
  fun s =>
    let s := with_event (EvReadFile path) s in
    match files s !! path with
    | Some (File content) => (s, Returned content)
    | Some Directory =>
        (s, Threw (SystemError "EISDIR" "EISDIR: illegal operation on a directory, read"))
    | None =>
        (s, Threw (SystemError "ENOENT"
                     ("ENOENT: no such file or directory, open '" +:+ path +:+ "'")))
    end.

(** [fs.writeFile(path, data, 'utf8')]: opens [path] for writing, which
    creates or truncates it, then writes [data]. *)
Definition fs_writeFile (w : world) (path data : string) : M unit :=
  fun s =>
    let s := with_event (EvWriteFile path data) s in
    match files s !! path with
    | Some Directory =>
        (s, Threw (SystemError "EISDIR"
                     ("EISDIR: illegal operation on a directory, open '" +:+ path +:+ "'")))
    | _ =>
        match write_fault_of w path with
        | Completes => (with_files (<[path := File data]> (files s)) s, Returned tt)
        | FailsAfter n e =>
            (with_files (<[path := File (str (take n (chars data)))]> (files s)) s,
             Threw e)
        end
    end.

Definition JSON_parse_js (w : world) (data : string) : M json :=
  match JSON_parse data with
  | Got v _ => ret v
  | Bad NotJSON => throw (SyntaxError (json_error_message w data))
  | Bad OutsideModel => throw Unmodelled
  end.

(** ** src/pandoc.js *)

Definition dq : string := String DQ EmptyString.

Definition buildMdToDocxArgs (mdPath outDocx : string) (refdoc : option string)
  : list string :=
  let args := [mdPath; "-o"; outDocx] in
  match refdoc with
  | Some r => if truthy_string refdoc then args ++ ["--reference-doc"; r] else args
  | None => args
  end.

Definition buildDocxToMdArgs (docxPath outMd : string) : list string :=
  [docxPath; "-o"; outMd].

Record pandoc_result := {
  result_status : Z;
  result_stdout : option string;
  result_stderr : option string
}.

Definition runPandoc (w : world) (args : list string) : M pandoc_result :=
  emit (EvSpawn "pandoc" args) ;;;
  let result := spawnSync w "pandoc" args in
  ret {| result_status := default 1%Z (status result);
         result_stdout := spawn_stdout result;
         result_stderr := spawn_stderr result |}.

Definition conversion_failure (direction : string) (status : Z) : string :=
  "pandoc failed (" +:+ direction +:+ ") with status " +:+ str (print_Z status).

Definition mdToDocx (w : world) (mdPath outDocx : string) (refdoc : option string)
  : M unit :=
  let args := buildMdToDocxArgs mdPath outDocx refdoc in
  let! result := runPandoc w args in
  if (result_status result =? 0)%Z then ret tt
  else throw (Error (conversion_failure "md → docx" (result_status result))).

Definition docxToMd (w : world) (docxPath outMd : string) : M unit :=
  let args := buildDocxToMdArgs docxPath outMd in
  let! result := runPandoc w args in
  if (result_status result =? 0)%Z then ret tt
  else throw (Error (conversion_failure "docx → md" (result_status result))).

Definition child_exec (w : world) (command : string) : M exec_result :=
  emit (EvExec command) ;;; ret (exec w command).

Definition checkPandocInstalled (w : world) : M bool :=
  let! r := child_exec w "pandoc --version" in
  match r with
  | ExecOk _ _ => ret true
  | ExecFailed _ => ret false
  end.

Definition fs_mkdir (w : world) (path : string) : M unit :=
  emit (EvMkdir path) ;;;
  match mkdir_error w path with
  | Some e => throw e
  | None => ret tt
  end.

Definition not_installed : string :=
  "Pandoc is not installed. Install it from https://pandoc.org/installing.html".

(** The tail shared by the two converters: run the command, report what it
    wrote to stderr unless that mentions a warning, and wrap a failure. *)
Definition run_conversion (w : world) (command outputPath : string) : M string :=
  let! r := child_exec w command in
  match r with
  | ExecOk _ stderr =>
      when (negb (String.eqb stderr EmptyString) && negb (includes stderr "Warning"))
        (console_log ("  Pandoc warnings: " +:+ stderr)) ;;;
      console_log ("  ✓ Created " +:+ outputPath) ;;;
      ret outputPath
  | ExecFailed message => throw (Error ("Pandoc conversion failed: " +:+ message))
  end.

Definition convertMarkdownToDocx (w : world) (mdPath : string)
    (refdocPath : option string) : M string :=
  console_log ("  Converting " +:+ mdPath +:+ " to DOCX...") ;;;
  let! isInstalled := checkPandocInstalled w in
  if negb isInstalled then throw (Error not_installed)
  else
    let outputPath := path_join w "dist" (basename w mdPath ".md" +:+ ".docx") in
    fs_mkdir w "dist" ;;;
    let command := "pandoc " +:+ dq +:+ mdPath +:+ dq +:+ " -o " +:+ dq +:+ outputPath +:+ dq in
    let command :=
      match refdocPath with
      | Some r =>
          if truthy_string refdocPath
          then command +:+ " --reference-doc=" +:+ dq +:+ r +:+ dq
          else command
      | None => command
      end in
    run_conversion w command outputPath.

Definition convertDocxToMarkdown (w : world) (docxPath outputPath : string)
  : M string :=
  console_log ("  Converting " +:+ docxPath +:+ " to Markdown...") ;;;
  let! isInstalled := checkPandocInstalled w in
  if negb isInstalled then throw (Error not_installed)
  else
    let outputDir := dirname w outputPath in
    fs_mkdir w outputDir ;;;
    let command :=
      "pandoc " +:+ dq +:+ docxPath +:+ dq +:+ " -o " +:+ dq +:+ outputPath +:+ dq
      +:+ " --wrap=none --extract-media=." in
    run_conversion w command outputPath.

(** ** src/drive.js *)

Definition default_manifest_path : string := ".draftsync.json".

Definition readManifest (w : world) (manifestPath : option string) : M json :=
  let manifestPath := default default_manifest_path manifestPath in
  try_catch
    (let! content := fs_readFile manifestPath in
     JSON_parse_js w content)
    (fun error =>
       if decide (error_code error = Some "ENOENT") then ret (JObj [])
       else throw error).

Definition writeManifest (w : world) (obj : json) (manifestPath : option string)
  : M unit :=
  let manifestPath := default default_manifest_path manifestPath in
  fs_writeFile w manifestPath (JSON_stringify obj).

Definition createDoc (w : world) (auth : auth_client) (title docxPath : string)
    (folderId : option string) : M string :=
  console_log ("  [STUB] Creating Google Doc: " +:+ title) ;;;
  emit (EvCreateDoc title docxPath) ;;;
  let fakeId := "stub_" +:+ substring_from 7 (random36 w) in
  console_log ("  [STUB] Would upload " +:+ docxPath +:+ " to Drive") ;;;
  match folderId with
  | Some f =>
      when (truthy_string folderId)
        (console_log ("  [STUB] Would place in folder: " +:+ f))
  | None => ret tt
  end ;;;
  ret fakeId.

(** ** src/auth.js *)

(** [authenticate] catches whatever goes wrong with the credentials and
    falls back to a stub, so it always returns. *)
Definition authenticate (w : world) : M auth_client :=
  console_log "  [STUB] Authenticating with Google APIs..." ;;;
  emit EvAuthenticate ;;;
  fold_right (fun l k => console_log l ;;; k) (ret tt) (auth_lines w) ;;;
  ret (auth_result w).

(** ** src/docs.js *)

Record house_style_options := {
  marginsInch : option float;
  doubleSpacing : option bool;
  headerText : option string
}.

Record dimension := { magnitude : float; unit_name : string }.

Inductive request :=
| updateDocumentStyle
    (marginTop marginBottom marginLeft marginRight : dimension) (fields : string)
| updateParagraphStyle (startIndex endIndex : Z) (lineSpacing : Z) (fields : string)
| createHeader (type : string) (sectionBreakIndex : Z).

Definition buildHouseStyleRequests (options : house_style_options) : list request :=
  let marginsInch := default 1%float (marginsInch options) in
  let doubleSpacing := default true (doubleSpacing options) in
  let headerText := headerText options in
  let requests := [] in
  let marginPoints := (marginsInch * 72)%float in
  let pt := {| magnitude := marginPoints; unit_name := "PT" |} in
  let requests :=
    requests ++ [updateDocumentStyle pt pt pt pt
                   "marginTop,marginBottom,marginLeft,marginRight"] in
  let requests :=
    if doubleSpacing
    then requests ++ [updateParagraphStyle 1 (-1) 200 "lineSpacing"]
    else requests in
  let requests :=
    if truthy_string headerText
    then requests ++ [createHeader "DEFAULT" 1]
    else requests in
  requests.

(** [formatDocument(auth, docId)] as the CLI calls it, with the default
    header text and line spacing. *)
Definition formatDocument (w : world) (auth : auth_client) (docId : json) : M unit :=
  console_log ("  [STUB] Applying manuscript formatting to " +:+ to_String docId) ;;;
  emit (EvFormatDocument (to_String docId)) ;;;
  console_log "  [STUB] Would apply:" ;;;
  console_log "    - Line spacing: 2" ;;;
  console_log "    - Margins: 1 inch" ;;;
  console_log "    - Header: Author / Title" ;;;
  console_log "    - Footer: Page numbers".

(** ** src/cli.js *)

Definition MANIFEST_FILE : string := ".draftsync.json".

Definition loadManifest (w : world) : M json :=
  try_catch
    (let! data := fs_readFile MANIFEST_FILE in
     JSON_parse_js w data)
    (fun error =>
       if decide (error_code error = Some "ENOENT")
       then ret (JObj [("files", JObj [])])
       else throw error).

Definition saveManifest (w : world) (manifest : json) : M unit :=
  fs_writeFile w MANIFEST_FILE (JSON_stringify manifest).

Definition new_entry (gdocId : json) (lastSync : string) : json :=
  JObj [("gdocId", gdocId); ("lastSync", JStr lastSync)].

(** [manifest.files = files], used after an in-place change of the object
    [manifest.files] to rebuild the manifest around it. *)
Definition with_manifest_files (manifest files : json) : json :=
  match manifest with
  | JObj ms => JObj (obj_set ms "files" files)
  | _ => manifest
  end.

(** [manifest.files[filePath] = entry]. *)
Definition assign_entry (manifest : json) (filePath : string) (entry : json)
  : M json :=
  let! files := lift (get_prop (Some manifest) "files") in
  let! files' := lift (set_prop files filePath entry) in
  ret (with_manifest_files manifest files').

(** [manifest.files[filePath]]. *)
Definition file_info (manifest : json) (filePath : string) : M jsval :=
  let! files := lift (get_prop (Some manifest) "files") in
  lift (get_prop files filePath).

(** [fileInfo.gdocId], read once [fileInfo] is known to be truthy. *)
Definition gdocId_of (fileInfo : jsval) : jsval :=
  match get_prop fileInfo "gdocId" with
  | Returned v => v
  | Threw _ => None
  end.

(** [fileInfo && fileInfo.gdocId] as a condition. *)
Definition has_gdocId (fileInfo : jsval) : bool :=
  truthy fileInfo && truthy (gdocId_of fileInfo).

Definition linkCommand (w : world) (filePath gdocId : string) : M unit :=
  console_log ("Linking " +:+ filePath +:+ " to Google Doc " +:+ gdocId +:+ "...") ;;;
  let! manifest := loadManifest w in
  let! manifest := assign_entry manifest filePath (new_entry (JStr gdocId) (now w)) in
  saveManifest w manifest ;;;
  console_log "✓ File linked successfully".

Record push_options := {
  folderId : option string;
  refdoc : option string;
  format : bool;
  dryRun : bool
}.

Definition push_plan (options : push_options) : M unit :=
  console_log "[DRY RUN] Would perform the following steps:" ;;;
  console_log "  1. Read Markdown file" ;;;
  console_log "  2. Would convert MD → DOCX using Pandoc" ;;;
  match refdoc options with
  | Some r =>
      when (truthy_string (refdoc options))
        (console_log ("  3. Would apply reference document: " +:+ r))
  | None => ret tt
  end ;;;
  console_log "  4. Would authenticate with Google API" ;;;
  match folderId options with
  | Some f =>
      if truthy_string (folderId options)
      then console_log ("  5. Would create Google Doc in folder: " +:+ f)
      else console_log "  5. Would create Google Doc in root"
  | None => console_log "  5. Would create Google Doc in root"
  end ;;;
  when (format options)
    (console_log "  6. Would apply formatting (double-space, margins, headers)").

(** The body of [pushCommand]'s [try] block. *)
Definition push_steps (w : world) (filePath : string) (options : push_options)
  : M unit :=
  let! auth := authenticate w in
  console_log "✓ Authenticated with Google" ;;;
  let! docxPath := convertMarkdownToDocx w filePath (refdoc options) in
  console_log ("✓ Converted to DOCX: " +:+ docxPath) ;;;
  let! manifest := loadManifest w in
  let! fileInfo := file_info manifest filePath in
  let! docId :=
    if has_gdocId fileInfo then
      let gdocId := default JNull (gdocId_of fileInfo) in
      console_log ("  Updating existing doc: " +:+ to_String gdocId) ;;;
      ret gdocId
    else
      let! docId := createDoc w auth (basename w filePath ".md") docxPath
                      (folderId options) in
      console_log ("✓ Created new Google Doc: " +:+ docId) ;;;
      let! manifest := assign_entry manifest filePath (new_entry (JStr docId) (now w)) in
      saveManifest w manifest ;;;
      ret (JStr docId) in
  when (format options)
    (formatDocument w auth docId ;;; console_log "✓ Applied formatting") ;;;
  console_log (nl +:+ "✓ Successfully pushed " +:+ filePath) ;;;
  console_log ("  View at: https://docs.google.com/document/d/"
               +:+ to_String docId +:+ "/edit").

Definition pushCommand (w : world) (filePath : string) (options : push_options)
  : M unit :=
  console_log ("Pushing " +:+ filePath +:+ " to Google Docs...") ;;;
  if dryRun options then push_plan options
  else
    try_catch (push_steps w filePath options)
      (fun error => console_error ("✗ Error: " +:+ error_message error)).

Record pull_options := { pull_dryRun : bool }.

(** The body of [pullCommand]'s [try] block. *)
Definition pull_steps (w : world) (filePath : string) (manifest : json) : M unit :=
  let! auth := authenticate w in
  console_log "✓ Authenticated with Google" ;;;
  let docxPath := path_join w "dist" (basename w filePath ".md" +:+ ".docx") in
  console_log ("  Downloaded to " +:+ docxPath) ;;;
  let! _ := convertDocxToMarkdown w docxPath filePath in
  console_log ("✓ Converted to Markdown: " +:+ filePath) ;;;
  let! fileInfo := file_info manifest filePath in
  let! fileInfo := lift (set_prop fileInfo "lastSync" (JStr (now w))) in
  let! manifest := assign_entry manifest filePath fileInfo in
  saveManifest w manifest ;;;
  console_log (nl +:+ "✓ Successfully pulled " +:+ filePath).

Definition pullCommand (w : world) (filePath : string) (options : pull_options)
  : M unit :=
  console_log ("Pulling " +:+ filePath +:+ " from Google Docs...") ;;;
  let! manifest := loadManifest w in
  let! fileInfo := file_info manifest filePath in
  if negb (has_gdocId fileInfo) then
    console_error ("✗ No Google Doc linked to " +:+ filePath) ;;;
    console_log ("  Run " +:+ dq +:+ "draftsync link <file> <gdoc-id>" +:+ dq +:+ " first")
  else if pull_dryRun options then
    console_log "[DRY RUN] Would perform the following steps:" ;;;
    console_log "  1. Would authenticate with Google API" ;;;
    console_log ("  2. Would export Google Doc "
                 +:+ to_String (default JNull (gdocId_of fileInfo)) +:+ " as DOCX") ;;;
    console_log "  3. Would convert DOCX → MD using Pandoc" ;;;
    console_log ("  4. Would save to " +:+ filePath)
  else
    try_catch (pull_steps w filePath manifest)
      (fun error => console_error ("✗ Error: " +:+ error_message error)).

(** ** Measures and predicates the proofs use *)

(** The characters a JSON value can start with. *)
Definition value_start (c : ascii) : bool :=
  match digit_of c with
  | Some _ => true
  | None =>
      Ascii.eqb c "-" || Ascii.eqb c "034" || Ascii.eqb c "[" || Ascii.eqb c "{"
      || Ascii.eqb c "n" || Ascii.eqb c "t" || Ascii.eqb c "f"
  end.

(** What may follow a number: anything but a digit, a point or an exponent. *)
Definition num_stop (r : text) : bool :=
  match r with
  | [] => true
  | c :: _ =>
      match digit_of c with
      | Some _ => false
      | None => negb (starts_fraction r)
      end
  end.

(** Fuel that parsing the text of [v] needs. *)
Fixpoint size (v : json) : nat :=
  match v with
  | JArr items => S (list_sum (map (fun x => S (size x)) items))
  | JObj members => S (list_sum (map (fun kv => S (size (snd kv))) members))
  | _ => 1
  end.

Definition item_sep (i : nat) : text := ","%char :: LF :: spaces i.

Definition member_text (i : nat) (kv : string * json) : text :=
  quote (fst kv) ++ ":"%char :: SP :: ser i (snd kv).

Definition round_trips (v : json) : Prop :=
  forall ind n r,
    serializable v = true -> (size v <= n)%nat -> num_stop r = true ->
    parse_value n (ser ind v ++ r) = Got v r.

(** [has_substring needle hay]: the text [needle] occurs in [hay]. *)
Definition has_substring (needle hay : string) : Prop :=
  exists before after, hay = before +:+ needle +:+ after.

Ltac all_chars c := destruct c as [[] [] [] [] [] [] [] []].

(** ** Predicates the statements use *)

(** The outcome is an [Error] whose message names the direction and the
    exit status. *)
Definition fails_naming (direction : string) (code : Z) (o : outcome unit) : Prop :=
  exists msg, o = Threw (Error msg)
              /\ has_substring direction msg
              /\ has_substring (str (print_Z code)) msg.

Definition returns_status (code : Z) (o : outcome pandoc_result) : Prop :=
  exists r, o = Returned r /\ result_status r = code.

Definition is_createHeader (r : request) : bool :=
  match r with
  | createHeader _ _ => true
  | _ => false
  end.

(** The [updateDocumentStyle] request for margins of [points] points. *)
Definition margins_request (points : float) : request :=
  let pt := {| magnitude := points; unit_name := "PT" |} in
  updateDocumentStyle pt pt pt pt "marginTop,marginBottom,marginLeft,marginRight".

Definition is_prefix_of (t data : string) : Prop :=
  exists n, t = str (take n (chars data)).

(** The remote id the manifest records for a file, if any: the [gdocId] of
    the file's entry under [files], when it is truthy. *)
Definition remote_id_of (manifest : json) (filePath : string) : option json :=
  match manifest with
  | JObj ms =>
      match assoc "files" ms with
      | Some (JObj entries) =>
          match assoc filePath entries with
          | Some (JObj entry) =>
              match assoc "gdocId" entry with
              | Some id => if truthy (Some id) then Some id else None
              | None => None
              end
          | _ => None
          end
      | _ => None
      end
  | _ => None
  end.

(** A manifest of the shape the tool writes: an object whose [files] is an
    object. *)
Definition has_files_object (manifest : json) : Prop :=
  exists ms entries, manifest = JObj ms /\ assoc "files" ms = Some (JObj entries).

(** The [lastSync] that the manifest on disk records for a file. *)
Definition recorded_lastSync (s : state) (filePath : string) : jsval :=
  match files s !! MANIFEST_FILE with
  | Some (File text) =>
      match JSON_parse text with
      | Got (JObj ms) _ =>
          match assoc "files" ms with
          | Some (JObj entries) =>
              match assoc filePath entries with
              | Some (JObj entry) => assoc "lastSync" entry
              | _ => None
              end
          | _ => None
          end
      | _ => None
      end
  | _ => None
  end.

(** What an unlinked pull prints. *)
Definition not_linked_report (filePath : string) : list console_line :=
  [Log ("Pulling " +:+ filePath +:+ " from Google Docs...");
   LogError ("✗ No Google Doc linked to " +:+ filePath);
   Log ("  Run " +:+ dq +:+ "draftsync link <file> <gdoc-id>" +:+ dq +:+ " first")].

(** The state in which the [try] block of a command starts: for a push the
    first line is printed, for a pull the manifest has been read as well. *)
Definition push_started (filePath : string) (s : state) : state :=
  with_line (Log ("Pushing " +:+ filePath +:+ " to Google Docs...")) s.

Definition pull_started (filePath : string) (s : state) : state :=
  with_event (EvReadFile MANIFEST_FILE)
    (with_line (Log ("Pulling " +:+ filePath +:+ " from Google Docs...")) s).

(** A computation that neither touches the files nor does anything the
    trace records. *)
Definition only_prints {A} (m : M A) : Prop :=
  forall s, files (m s).1 = files s /\ trace (m s).1 = trace s.

(** A computation that leaves the files as they are, when they are [F]. *)
Definition keeps_files_at {A} (F : gmap string node) (m : M A) : Prop :=
  forall s, files s = F -> files (m s).1 = F.

(** ** Sample worlds and states *)

(** The path functions on plain relative paths such as [content/ch1.md]:
    the text after the last slash without the extension, and the text
    before the last slash. *)
Fixpoint split_last_slash (dir seg p : text) : text * text :=
  match p with
  | [] => (dir, seg)
  | c :: p' =>
      if Ascii.eqb c "/"
      then split_last_slash (if decide (dir = []) then seg else dir ++ "/"%char :: seg) [] p'
      else split_last_slash dir (seg ++ [c]) p'
  end.

Definition plain_basename (p ext : string) : string :=
  let seg := (split_last_slash [] [] (chars p)).2 in
  let e := chars ext in
  let n := (length seg - length e)%nat in
  if decide (drop n seg = e /\ seg <> e) then str (take n seg) else str seg.

Definition plain_dirname (p : string) : string :=
  match (split_last_slash [] [] (chars p)).1 with
  | [] => "."
  | d => str d
  end.

Definition sample_world : world := {|
  write_fault_of := fun _ => Completes;
  mkdir_error := fun _ => None;
  exec := fun _ => ExecOk EmptyString EmptyString;
  spawnSync := fun _ _ =>
    {| status := Some 0%Z; spawn_stdout := None; spawn_stderr := None |};
  now := "2026-02-02T10:00:00.000Z";
  random36 := "0.4fzyo82mvyr";
  auth_result := StubbedAuth;
  auth_lines := ["  [STUB] credentials.json not found. Download it from Google "
                 +:+ "Cloud Console and place it in the project root."
                 +:+ nl +:+ "See README.md for instructions.";
                 "  Continuing with stubbed auth..."];
  json_error_message := fun _ => "Unexpected token in JSON";
  basename := plain_basename;
  dirname := plain_dirname;
  path_join := fun a b => a +:+ "/" +:+ b
|}.

Definition disk_full : js_error :=
  SystemError "ENOSPC" "ENOSPC: no space left on device, write".

(** The sample world with a full disk: a write fails before its first
    byte. *)
Definition full_disk_world : world := {|
  write_fault_of := fun _ => FailsAfter 0 disk_full;
  mkdir_error := mkdir_error sample_world;
  exec := exec sample_world;
  spawnSync := spawnSync sample_world;
  now := now sample_world;
  random36 := random36 sample_world;
  auth_result := auth_result sample_world;
  auth_lines := auth_lines sample_world;
  json_error_message := json_error_message sample_world;
  basename := basename sample_world;
  dirname := dirname sample_world;
  path_join := path_join sample_world
|}.

(** The sample world without Pandoc: every command fails to run. *)
Definition no_pandoc_world : world := {|
  write_fault_of := write_fault_of sample_world;
  mkdir_error := mkdir_error sample_world;
  exec := fun command => ExecFailed ("Command failed: " +:+ command);
  spawnSync := spawnSync sample_world;
  now := now sample_world;
  random36 := random36 sample_world;
  auth_result := auth_result sample_world;
  auth_lines := auth_lines sample_world;
  json_error_message := json_error_message sample_world;
  basename := basename sample_world;
  dirname := dirname sample_world;
  path_join := path_join sample_world
|}.

Definition state_with (fs : gmap string node) : state :=
  {| files := fs; console := []; trace := [] |}.

(** A manifest as [init] and [link] leave it: one linked chapter. *)
Definition sample_manifest : json :=
  JObj [("version", JStr "1.0");
        ("files",
         JObj [("content/ch1.md",
                JObj [("gdocId", JStr "abc123");
                      ("lastSync", JStr "2025-01-01T00:00:00.000Z")])]);
        ("config",
         JObj [("contentDir", JStr "content"); ("distDir", JStr "dist");
               ("templatesDir", JStr "templates")])].

Definition sample_state : state :=
  state_with {[ MANIFEST_FILE := File (JSON_stringify sample_manifest) ]}.

(** [push] without options. *)
Definition real_push : push_options :=
  {| folderId := None; refdoc := None; format := false; dryRun := false |}.

(** ** src/cli.js: [initCommand] and [statusCommand] *)

(** A [for (const x of l)] loop with an awaited body. *)
Fixpoint for_each {A} (f : A -> M unit) (l : list A) : M unit :=
  match l with
  | [] => ret tt
  | x :: l' => f x ;;; for_each f l'
  end.

Definition initial_manifest : json :=
  JObj [("version", JStr "1.0");
        ("files", JObj []);
        ("config",
         JObj [("contentDir", JStr "content"); ("distDir", JStr "dist");
               ("templatesDir", JStr "templates")])].

(** The body of [initCommand]'s loop over the directories. *)
Definition init_directory (w : world) (dir : string) : M unit :=
  try_catch
    (fs_mkdir w dir ;;; console_log ("✓ Created " +:+ dir +:+ "/"))
    (fun error =>
       if decide (error_code error = Some "EEXIST") then ret tt else throw error).

Definition initCommand (w : world) : M unit :=
  console_log "Initializing draftsync project..." ;;;
  saveManifest w initial_manifest ;;;
  for_each (init_directory w) ["content"; "dist"; "templates"] ;;;
  console_log (nl +:+ "✓ Initialized draftsync project") ;;;
  console_log (nl +:+ "Next steps:") ;;;
  console_log "  1. Place your Markdown files in content/" ;;;
  console_log ("  2. Run " +:+ dq +:+ "draftsync push <file.md>" +:+ dq
               +:+ " to sync to Google Docs") ;;;
  console_log ("  3. Run " +:+ dq +:+ "draftsync build:epub" +:+ dq
               +:+ " to generate an EPUB").

(** [ToString] of a value that may be [undefined]. *)
Definition to_String_js (v : jsval) : string :=
  match v with
  | Some j => to_String j
  | None => "undefined"
  end.

(** [Object.entries]: the members of an object; nothing for a number, a
    boolean, an empty string or an empty array.  The indexed members of a
    non-empty array or string are outside the model. *)
Definition object_entries (o : jsval) : outcome (list (string * json)) :=
  match o with
  | None | Some JNull =>
      Threw (TypeError "Cannot convert undefined or null to object")
  | Some (JObj ms) => Returned ms
  | Some (JArr (_ :: _)) | Some (JStr (String _ _)) => Threw Unmodelled
  | Some _ => Returned []
  end.

Section status.

(** [new Date(v).toLocaleString()], which depends on the locale and the
    time zone of the machine. *)
Variable toLocaleString : jsval -> string.

(** The body of [statusCommand]'s loop over the entries. *)
Definition status_entry (kv : string * json) : M unit :=
  let filePath := fst kv in
  let info := Some (snd kv) in
  console_log ("  " +:+ filePath) ;;;
  let! gdocId := lift (get_prop info "gdocId") in
  console_log ("    Google Doc: " +:+ to_String_js gdocId) ;;;
  let! lastSync := lift (get_prop info "lastSync") in
  console_log ("    Last sync:  " +:+ toLocaleString lastSync) ;;;
  let! gdocId := lift (get_prop info "gdocId") in
  console_log ("    URL:        https://docs.google.com/document/d/"
               +:+ to_String_js gdocId +:+ "/edit") ;;;
  console_log EmptyString.

Definition statusCommand (w : world) : M unit :=
  console_log ("draftsync status" +:+ nl) ;;;
  let! manifest := loadManifest w in
  let! filesv := lift (get_prop (Some manifest) "files") in
  let! entries := lift (object_entries filesv) in
  if (length entries =? 0)%nat then
    console_log "No files linked yet." ;;;
    console_log ("Run " +:+ dq +:+ "draftsync link <file> <gdoc-id>" +:+ dq
                 +:+ " to link files.")
  else
    console_log ("Linked files:" +:+ nl) ;;;
    for_each status_entry entries.

End status.

(** ** src/build/epub.js and src/build/web.js: [getMarkdownFiles] *)

(** [String.prototype.endsWith]. *)
Definition ends_with (s suffix : string) : bool :=
  bool_decide (drop (length (chars s) - length (chars suffix)) (chars s) = chars suffix).

(** [readdir] is what [fs.readdir] answers for a directory.  The default
    [sort] orders strings by their code units; here names are compared byte
    by byte, which is the same order for names within the Basic Multilingual
    Plane.  Whatever algorithm the engine uses, the result is the sorted
    arrangement of the names. *)
Definition getMarkdownFiles (w : world) (readdir : string -> outcome (list string))
    (contentDir : string) : M (list string) :=
  let! names := lift (readdir contentDir) in
  let mdFiles :=
    map (path_join w contentDir)
      (merge_sort String.le (List.filter (fun f => ends_with f ".md") names)) in
  ret mdFiles.

(** ** src/build/kdp.js: [findKindlePreviewer] *)

(** [fs.access(path)]: returns when something exists at the path. *)
Definition fs_access (path : string) : M unit :=
  fun s =>
    match files s !! path with
    | Some _ => (s, Returned tt)
    | None =>
        (s, Threw (SystemError "ENOENT"
                     ("ENOENT: no such file or directory, access '" +:+ path +:+ "'")))
    end.

Definition possiblePaths : list string :=
  ["/Applications/Kindle Previewer 3.app/Contents/MacOS/Kindle Previewer 3";
   "C:\Program Files\Amazon\Kindle Previewer 3\Kindle Previewer 3.exe";
   "C:\Program Files (x86)\Amazon\Kindle Previewer 3\Kindle Previewer 3.exe"].

(** The loop of [findKindlePreviewer]: return the first path that can be
    accessed, go on when the access throws, [null] at the end. *)
Fixpoint first_accessible (paths : list string) : M (option string) :=
  match paths with
  | [] => ret None
  | path :: rest =>
      try_catch (fs_access path ;;; ret (Some path))
        (fun _ => first_accessible rest)
  end.

Definition findKindlePreviewer : M (option string) := first_accessible possiblePaths.

(** ** src/pandoc.js: [validateEpub] *)

(** [s.split('\n')], on text. *)
Fixpoint split_at_LF (cur s : text) : list text :=
  match s with
  | [] => [cur]
  | c :: s' =>
      if Ascii.eqb c LF then cur :: split_at_LF [] s'
      else split_at_LF (cur ++ [c]) s'
  end.

Definition split_lines (s : string) : list string :=
  map str (split_at_LF [] (chars s)).

Record validation := { valid : bool; errors : list string }.

Section epubcheck.

(** [error.stderr] of a command that failed, when the error carries one. *)
Variable failure_stderr : string -> option string.

Definition validateEpub (w : world) (epubPath : string) : M validation :=
  console_log ("  Validating " +:+ epubPath +:+ "...") ;;;
  let command := "epubcheck " +:+ dq +:+ epubPath +:+ dq in
  let! r := child_exec w command in
  match r with
  | ExecOk _ _ =>
      console_log "  ✓ EPUB is valid" ;;;
      ret {| valid := true; errors := [] |}
  | ExecFailed _ =>
      let errors :=
        match failure_stderr command with
        | Some stderr =>
            if truthy_string (Some stderr)
            then List.filter (fun l => negb (String.eqb l EmptyString)) (split_lines stderr)
            else []
        | None => []
        end in
      ret {| valid := false; errors := errors |}
  end.

End epubcheck.

(** ** Predicates for the properties of the commands *)

(** The entry the manifest holds for a file under [files]. *)
Definition entry_of (manifest : json) (filePath : string) : jsval :=
  match manifest with
  | JObj ms =>
      match assoc "files" ms with
      | Some (JObj entries) => assoc filePath entries
      | _ => None
      end
  | _ => None
  end.

(** Every command the tool runs succeeds, directories can be made and the
    manifest can be written. *)
Definition pandoc_works (w : world) : Prop :=
  (forall command, exists stdout stderr, exec w command = ExecOk stdout stderr)
  /\ (forall dir, mkdir_error w dir = None)
  /\ write_fault_of w MANIFEST_FILE = Completes.

(** [pandoc --version] fails. *)
Definition pandoc_missing (w : world) : Prop :=
  exists message, exec w "pandoc --version" = ExecFailed message.

(** A step of a command that may be taken without creating a remote
    document or writing a file. *)
Definition quiet_event (e : event) : bool :=
  match e with
  | EvCreateDoc _ _ | EvWriteFile _ _ => false
  | _ => true
  end.

(** [I] holds after [m] whenever it held before. *)
Definition holds_through {A} (I : state -> Prop) (m : M A) : Prop :=
  forall s, I s -> I (m s).1.

(** From the files [F], [m] returns [a] and leaves the files [F']. *)
Definition runs {A} (F : gmap string node) (m : M A) (a : A) (F' : gmap string node)
  : Prop :=
  forall s, files s = F -> (m s).2 = Returned a /\ files (m s).1 = F'.

(** After [s], the manifest on disk loads, holds [entry] for [filePath],
    and agrees with [manifest] on every other entry and on every member
    other than [files]. *)
Definition manifest_records (w : world) (s : state) (manifest : json)
    (filePath : string) (entry : json) : Prop :=
  exists manifest',
    (loadManifest w s).2 = Returned manifest'
    /\ entry_of manifest' filePath = Some entry
    /\ (forall other, other <> filePath ->
                      entry_of manifest' other = entry_of manifest other)
    /\ (forall k, k <> "files" ->
                  get_prop (Some manifest') k = get_prop (Some manifest) k).

(** Since [s0], the files are as they were and every step taken was a
    quiet one. *)
Definition quiet_since (s0 s : state) : Prop :=
  files s = files s0
  /\ exists steps, trace s = trace s0 ++ steps /\ forallb quiet_event steps = true.

(** The sample world with a Pandoc that is installed and fails to convert. *)
Definition broken_pandoc_world : world := {|
  write_fault_of := write_fault_of sample_world;
  mkdir_error := mkdir_error sample_world;
  exec := fun command =>
    if String.eqb command "pandoc --version" then ExecOk "pandoc 3.1.9" EmptyString
    else ExecFailed "Command failed: pandoc: openBinaryFile: does not exist";
  spawnSync := spawnSync sample_world;
  now := now sample_world;
  random36 := random36 sample_world;
  auth_result := auth_result sample_world;
  auth_lines := auth_lines sample_world;
  json_error_message := json_error_message sample_world;
  basename := basename sample_world;
  dirname := dirname sample_world;
  path_join := path_join sample_world
|}.

(** A manifest file that is not JSON. *)
Definition corrupt_state : state :=
  state_with {[ MANIFEST_FILE := File "{ invalid json" ]}.

(** A directory listing as [fs.readdir] gives it, in no particular order. *)
Definition sample_listing : list string :=
  ["02-b.md"; "notes.txt"; "01-a.md"; "10-z.md"].

(** * Proofs *)

Lemma chars_str t : chars (str t) = t.
Proof. apply list_ascii_of_string_of_list_ascii. Qed.

Lemma str_chars s : str (chars s) = s.
Proof. apply string_of_list_ascii_of_string. Qed.

Lemma value_start_not_ws c : value_start c = true -> is_ws c = false.
Proof. all_chars c; vm_compute; congruence. Qed.

Lemma value_start_not_close c :
  value_start c = true -> Ascii.eqb c "]" = false /\ Ascii.eqb c "}" = false.
Proof. all_chars c; vm_compute; intuition congruence. Qed.

Lemma skip_ws_start c s : is_ws c = false -> skip_ws (c :: s) = c :: s.
Proof. intros H; simpl; now rewrite H. Qed.

Lemma skip_ws_spaces n s : skip_ws (spaces n ++ s) = skip_ws s.
Proof. induction n; simpl; auto. Qed.

Lemma num_stop_fraction r : num_stop r = true -> starts_fraction r = false.
Proof.
  destruct r as [|c r']; [reflexivity|]. unfold num_stop.
  destruct (digit_of c); [discriminate|]. apply negb_true_iff.
Qed.

Lemma parse_digits_print u r :
  num_stop r = true -> parse_digits (print_uint u ++ r) = (u, r).
Proof.
  intros Hr. induction u; simpl; try (rewrite IHu; reflexivity).
  destruct r as [|c r']; [reflexivity|].
  simpl in *. destruct (digit_of c); [discriminate|reflexivity].
Qed.

Lemma print_uint_head u :
  u <> Nil -> exists c t, print_uint u = c :: t /\ is_Some (digit_of c).
Proof. destruct u; [congruence|..]; intros _; simpl; eauto 6. Qed.

Lemma unorm_head_zero u u' : unorm u = D0 u' -> u' = Nil.
Proof.
  induction u; simpl; intros H; try discriminate; auto.
  now injection H.
Qed.

Lemma to_uint_unorm p : unorm (Pos.to_uint p) = Pos.to_uint p.
Proof.
  rewrite <- DecimalPos.Unsigned.to_of, DecimalPos.Unsigned.of_to. reflexivity.
Qed.

Lemma int_part_ok_pos p : int_part_ok (Pos.to_uint p) = true.
Proof.
  pose proof (to_uint_unorm p) as Hn.
  pose proof (DecimalPos.Unsigned.to_uint_nonnil p) as Hnil.
  destruct (Pos.to_uint p) eqn:E; try reflexivity; [congruence|].
  apply unorm_head_zero in Hn. now subst.
Qed.

Lemma digit_not_minus c : is_Some (digit_of c) -> Ascii.eqb c "-" = false.
Proof. all_chars c; vm_compute; intros [? ?]; congruence. Qed.

Lemma parse_number_unsigned u r :
  u <> Nil -> int_part_ok u = true -> num_stop r = true ->
  parse_number (print_uint u ++ r) = Got (JNum (Z.of_int (Decimal.Pos u))) r.
Proof.
  intros Hu Hok Hr. destruct (print_uint_head u Hu) as (c & t & E & Hc).
  unfold parse_number. rewrite E. simpl app. cbv beta iota.
  rewrite (digit_not_minus c Hc).
  change (c :: t ++ r) with ((c :: t) ++ r). rewrite <- E.
  rewrite parse_digits_print by assumption. rewrite Hok.
  now rewrite (num_stop_fraction r Hr).
Qed.

Lemma parse_number_negative u r :
  int_part_ok u = true -> num_stop r = true ->
  parse_number ("-"%char :: print_uint u ++ r) = Got (JNum (Z.of_int (Decimal.Neg u))) r.
Proof.
  intros Hok Hr. unfold parse_number.
  change (Ascii.eqb "-" "-") with true. cbv iota beta.
  rewrite parse_digits_print by assumption. rewrite Hok.
  now rewrite (num_stop_fraction r Hr).
Qed.

Lemma parse_number_print z r :
  num_stop r = true -> parse_number (print_Z z ++ r) = Got (JNum z) r.
Proof.
  intros Hr. unfold print_Z.
  rewrite <- (DecimalZ.of_to z) at 2.
  destruct z as [|p|p]; simpl Z.to_int; cbv iota.
  - apply (parse_number_unsigned (D0 Nil)); [discriminate|reflexivity|assumption].
  - apply parse_number_unsigned; auto using DecimalPos.Unsigned.to_uint_nonnil, int_part_ok_pos.
  - apply parse_number_negative; auto using int_part_ok_pos.
Qed.

Lemma print_Z_head z :
  exists c t, print_Z z = c :: t /\ (is_Some (digit_of c) \/ c = "-"%char).
Proof.
  unfold print_Z. destruct z as [|p|p]; simpl Z.to_int; cbv iota.
  - exists "0"%char, []. split; [reflexivity|left; vm_compute; eauto].
  - destruct (print_uint_head (Pos.to_uint p)) as (c & t & E & Hc);
      [apply DecimalPos.Unsigned.to_uint_nonnil|]. eauto 6.
  - eauto 6.
Qed.

(** Strings *)
Lemma parse_quote_char c s :
  parse_string_body (quote_char c ++ s) =
  match parse_string_body s with
  | Got t r => Got (c :: t) r
  | Bad e => Bad e
  end.
Proof. all_chars c; reflexivity. Qed.

Lemma parse_string_body_quoted t r :
  parse_string_body (flat_map quote_char t ++ "034"%char :: r) = Got t r.
Proof.
  induction t as [|c t IH]; [reflexivity|].
  simpl flat_map. rewrite <- app_assoc, parse_quote_char, IH. reflexivity.
Qed.

Lemma parse_string_quote s r : parse_string (quote s ++ r) = Got s r.
Proof.
  unfold quote, parse_string. simpl app.
  change (Ascii.eqb "034" "034") with true. cbv iota.
  rewrite <- app_assoc. simpl app.
  rewrite parse_string_body_quoted, str_chars. reflexivity.
Qed.

Lemma skip_ws_quote s r : skip_ws (quote s ++ r) = quote s ++ r.
Proof. reflexivity. Qed.

(** Objects *)
Lemma obj_set_fresh o k v :
  k ∉ map fst o -> obj_set o k v = o ++ [(k, v)].
Proof.
  induction o as [|[k' v'] o IH]; simpl; intros Hk; [reflexivity|].
  apply not_elem_of_cons in Hk as [Hne Hk].
  destruct (String.eqb_spec k' k); [congruence|]. now rewrite IH.
Qed.

Lemma obj_of_members_acc ms acc :
  NoDup (map fst (acc ++ ms)) ->
  fold_left (fun o kv => obj_set o (fst kv) (snd kv)) ms acc = acc ++ ms.
Proof.
  revert acc. induction ms as [|[k v] ms IH]; intros acc Hnd; simpl.
  - now rewrite app_nil_r.
  - rewrite obj_set_fresh.
    + rewrite IH; rewrite <- app_assoc; [reflexivity|exact Hnd].
    + rewrite map_app in Hnd. simpl in Hnd.
      apply NoDup_app in Hnd as (_ & Hd & _).
      intros Hin. apply (Hd k Hin). left.
Qed.

Lemma obj_of_members_nodup ms : NoDup (map fst ms) -> obj_of_members ms = ms.
Proof. intros H. apply (obj_of_members_acc ms []). exact H. Qed.

Lemma ser_head ind v :
  exists c t, ser ind v = c :: t /\ value_start c = true.
Proof.
  destruct v as [| [] | z | s | [|x xs] | [|kv kvs]]; simpl;
    try (eexists _, _; split; [reflexivity|reflexivity]).
  destruct (print_Z_head z) as (c & t & E & Hc). exists c, t. split; [exact E|].
  destruct Hc as [Hc | ->]; [|reflexivity].
  unfold value_start. destruct Hc as [d ->]. reflexivity.
Qed.

Lemma parse_value_ws n k s :
  parse_value n (LF :: spaces k ++ s) = parse_value n s.
Proof.
  destruct n; [reflexivity|]. simpl parse_value.
  change (skip_ws (LF :: spaces k ++ s)) with (skip_ws (spaces k ++ s)).
  now rewrite skip_ws_spaces.
Qed.

Lemma parse_value_number n c s :
  is_Some (digit_of c) \/ c = "-"%char ->
  parse_value (S n) (c :: s) = parse_number (c :: s).
Proof.
  intros H. cbn [parse_value skip_ws].
  assert (is_ws c = false /\ Ascii.eqb c "n" = false /\ Ascii.eqb c "t" = false
          /\ Ascii.eqb c "f" = false /\ Ascii.eqb c "034" = false
          /\ Ascii.eqb c "[" = false /\ Ascii.eqb c "{" = false)
    as (Hw & H1 & H2 & H3 & H4 & H5 & H6).
  { destruct H as [[d H] | ->]; [|vm_compute; auto 10].
    revert H. all_chars c; vm_compute; intros; try discriminate; auto 10. }
  now rewrite Hw, H1, H2, H3, H4, H5, H6.
Qed.

Lemma ser_arr_app ind x xs r :
  ser ind (JArr (x :: xs)) ++ r =
  "["%char :: LF :: spaces (ind + 2)
    ++ join_with (item_sep (ind + 2)) (map (ser (ind + 2)) (x :: xs))
    ++ LF :: spaces ind ++ "]"%char :: r.
Proof.
  cbn [ser]. unfold item_sep. cbn [app].
  rewrite <- !app_assoc. cbn [app]. rewrite <- !app_assoc. reflexivity.
Qed.

Lemma ser_obj_app ind kv kvs r :
  ser ind (JObj (kv :: kvs)) ++ r =
  "{"%char :: LF :: spaces (ind + 2)
    ++ join_with (item_sep (ind + 2)) (map (member_text (ind + 2)) (kv :: kvs))
    ++ LF :: spaces ind ++ "}"%char :: r.
Proof.
  cbn [ser]. unfold item_sep, member_text. cbn [app].
  rewrite <- !app_assoc. cbn [app]. rewrite <- !app_assoc. reflexivity.
Qed.

Lemma parse_value_open_bracket n s :
  parse_value (S n) ("["%char :: s) =
  match skip_ws s with
  | c :: r =>
      if Ascii.eqb c "]" then Got (JArr []) r
      else match parse_elements n s with
           | Got vs r' => Got (JArr vs) r'
           | Bad e => Bad e
           end
  | [] => Bad NotJSON
  end.
Proof. reflexivity. Qed.

Lemma parse_value_open_brace n s :
  parse_value (S n) ("{"%char :: s) =
  match skip_ws s with
  | c :: r =>
      if Ascii.eqb c "}" then Got (JObj []) r
      else match parse_members n s with
           | Got ms r' => Got (JObj (obj_of_members ms)) r'
           | Bad e => Bad e
           end
  | [] => Bad NotJSON
  end.
Proof. reflexivity. Qed.

Lemma parse_value_sp n s : parse_value n (SP :: s) = parse_value n s.
Proof. destruct n; reflexivity. Qed.

Lemma parse_elements_ser i ind r items :
  items <> [] ->
  Forall round_trips items ->
  forallb serializable items = true ->
  forall m, list_sum (map (fun x => S (size x)) items) <= m ->
  parse_elements m
    (LF :: spaces i ++ join_with (item_sep i) (map (ser i) items)
       ++ LF :: spaces ind ++ "]"%char :: r) = Got items r.
Proof.
  intros Hne HF. induction HF as [|x xs Hx HF IH]; [congruence|clear Hne].
  intros Hs m Hm. cbn [forallb] in Hs. apply andb_true_iff in Hs as [Hsx Hsxs].
  simpl in Hm. destruct m as [|m]; [lia|].
  cbn [parse_elements]. rewrite parse_value_ws.
  destruct xs as [|y ys].
  - cbn [map join_with]. rewrite Hx; [|assumption|lia|reflexivity].
    change (skip_ws (LF :: spaces ind ++ "]"%char :: r))
      with (skip_ws (spaces ind ++ "]"%char :: r)).
    rewrite skip_ws_spaces. reflexivity.
  - change (join_with (item_sep i) (map (ser i) (x :: y :: ys)))
      with (ser i x ++ item_sep i ++ join_with (item_sep i) (map (ser i) (y :: ys))).
    rewrite <- !app_assoc. rewrite Hx; [|assumption|lia|reflexivity].
    unfold item_sep at 1. cbn [app skip_ws].
    change (is_ws ",") with false. change (Ascii.eqb "," ",") with true.
    cbv iota. rewrite IH; [reflexivity|discriminate|assumption|].
    simpl in *. lia.
Qed.

Lemma parse_members_ser i ind r members :
  members <> [] ->
  Forall (fun kv => round_trips (snd kv)) members ->
  forallb (fun kv => serializable (snd kv)) members = true ->
  forall m, list_sum (map (fun kv => S (size (snd kv))) members) <= m ->
  parse_members m
    (LF :: spaces i ++ join_with (item_sep i) (map (member_text i) members)
       ++ LF :: spaces ind ++ "}"%char :: r) = Got members r.
Proof.
  intros Hne HF. induction HF as [|[k v] kvs Hx HF IH]; [congruence|clear Hne].
  intros Hs m Hm. cbn [forallb snd] in Hs. apply andb_true_iff in Hs as [Hsx Hsxs].
  simpl in Hm. destruct m as [|m]; [lia|].
  cbn [parse_members].
  change (skip_ws (LF :: spaces i ++ ?s)) with (skip_ws (spaces i ++ s)).
  rewrite skip_ws_spaces.
  assert (Hkey : forall tl,
    parse_string (skip_ws (member_text i (k, v) ++ tl)) =
    Got k (":"%char :: SP :: ser i v ++ tl)).
  { intros tl. unfold member_text. cbn [fst snd]. rewrite <- app_assoc.
    rewrite skip_ws_quote.
    change (quote k ++ (":"%char :: SP :: ser i v) ++ tl)
      with (quote k ++ ":"%char :: SP :: ser i v ++ tl).
    apply parse_string_quote. }
  cbn [snd] in Hx.
  destruct kvs as [|kv' kvs'].
  - cbn [map join_with]. rewrite Hkey. cbn [skip_ws].
    change (is_ws ":") with false. change (Ascii.eqb ":" ":") with true.
    cbv iota. rewrite parse_value_sp.
    rewrite Hx; [|assumption|lia|reflexivity].
    change (skip_ws (LF :: spaces ind ++ "}"%char :: r))
      with (skip_ws (spaces ind ++ "}"%char :: r)).
    rewrite skip_ws_spaces. reflexivity.
  - change (join_with (item_sep i) (map (member_text i) ((k, v) :: kv' :: kvs')))
      with (member_text i (k, v) ++ item_sep i
              ++ join_with (item_sep i) (map (member_text i) (kv' :: kvs'))).
    rewrite <- !app_assoc. rewrite Hkey. cbn [skip_ws].
    change (is_ws ":") with false. change (Ascii.eqb ":" ":") with true.
    cbv iota. rewrite parse_value_sp.
    rewrite Hx; [|assumption|lia|reflexivity].
    unfold item_sep at 1. cbn [app skip_ws].
    change (is_ws ",") with false. change (Ascii.eqb "," ",") with true.
    cbv iota. rewrite IH; [reflexivity|discriminate|assumption|].
    simpl in *. lia.
Qed.

Lemma skip_ws_first_item i (f : text) fs tl c t :
  f = c :: t -> is_ws c = false ->
  skip_ws (LF :: spaces i ++ join_with (item_sep i) (f :: fs) ++ tl)
  = c :: t ++ match fs with
              | [] => tl
              | _ => item_sep i ++ join_with (item_sep i) fs ++ tl
              end.
Proof.
  intros -> Hc.
  change (skip_ws (LF :: spaces i ++ ?s)) with (skip_ws (spaces i ++ s)).
  rewrite skip_ws_spaces.
  destruct fs; cbn [join_with]; rewrite <- ?app_assoc; cbn [app];
    now rewrite skip_ws_start.
Qed.

Lemma parse_ser v : round_trips v.
Proof.
  induction v as [| b | z | s | items IH | members IH] using json_ind;
    intros ind n r Hs Hn Hr; (destruct n as [|n]; [simpl in Hn; lia|]).
  - reflexivity.
  - destruct b; reflexivity.
  - destruct (print_Z_head z) as (c & t & E & Hc). cbn [ser]. rewrite E.
    cbn [app]. rewrite parse_value_number by assumption.
    change (c :: t ++ r) with ((c :: t) ++ r). rewrite <- E.
    now apply parse_number_print.
  - cbn [ser]. unfold quote at 1. cbn [app parse_value skip_ws].
    change (is_ws "034") with false. cbv iota.
    change (parse_string ?x) with (parse_string x).
    replace ("034"%char :: (flat_map quote_char (chars s) ++ ["034"%char]) ++ r)
      with (quote s ++ r) by reflexivity.
    rewrite parse_string_quote. reflexivity.
  - destruct items as [|x xs]; [reflexivity|].
    rewrite ser_arr_app, parse_value_open_bracket.
    destruct (ser_head (ind + 2) x) as (c & t & E & Hc).
    cbn [map].
    rewrite (skip_ws_first_item _ _ _ _ c t E (value_start_not_ws c Hc)).
    rewrite (proj1 (value_start_not_close c Hc)).
    change (ser (ind + 2) x :: map (ser (ind + 2)) xs)
      with (map (ser (ind + 2)) (x :: xs)).
    rewrite parse_elements_ser; [reflexivity|discriminate|assumption|exact Hs|].
    simpl in Hn |- *. lia.
  - destruct members as [|kv kvs]; [reflexivity|].
    cbn [serializable] in Hs. apply andb_true_iff in Hs as [Hnd Hs].
    apply bool_decide_eq_true in Hnd.
    rewrite ser_obj_app, parse_value_open_brace.
    cbn [map].
    rewrite (skip_ws_first_item _ (member_text (ind + 2) kv) _ _ "034"%char
               (flat_map quote_char (chars (fst kv)) ++ ["034"%char]
                  ++ ":"%char :: SP :: ser (ind + 2) (snd kv)));
      [|unfold member_text, quote; cbn [app]; now rewrite <- app_assoc|reflexivity].
    change (Ascii.eqb "034" "}") with false. cbv iota.
    change (member_text (ind + 2) kv :: map (member_text (ind + 2)) kvs)
      with (map (member_text (ind + 2)) (kv :: kvs)).
    rewrite parse_members_ser; [|discriminate|assumption|exact Hs|].
    + now rewrite obj_of_members_nodup.
    + simpl in Hn |- *. lia.
Qed.

Lemma sum_sizes_le_join {A} (sz : A -> nat) (f : A -> text) (s : text) l :
  (1 <= length s)%nat ->
  Forall (fun a => sz a <= length (f a))%nat l ->
  (list_sum (map (fun a => S (sz a)) l) <= length (join_with s (map f l)) + 1)%nat.
Proof.
  intros Hs HF. induction HF as [|a l Ha HF IH]; [simpl; lia|].
  destruct l as [|b l'].
  - simpl. lia.
  - change (join_with s (map f (a :: b :: l')))
      with (f a ++ s ++ join_with s (map f (b :: l'))).
    rewrite !length_app. simpl list_sum in *. simpl map in *. lia.
Qed.

Lemma size_le_length v : forall ind, (size v <= length (ser ind v))%nat.
Proof.
  induction v as [| b | z | s | items IH | members IH] using json_ind; intros ind.
  - simpl. lia.
  - destruct b; simpl; lia.
  - destruct (print_Z_head z) as (c & t & E & _). cbn [ser size]. rewrite E.
    simpl. lia.
  - cbn [ser size]. unfold quote. simpl. lia.
  - destruct items as [|x xs]; [simpl; lia|].
    pose proof (sum_sizes_le_join size (ser (ind + 2)) (item_sep (ind + 2)) (x :: xs)) as H.
    rewrite <- (app_nil_r (ser ind (JArr (x :: xs)))), ser_arr_app.
    cbn [size].
    assert (list_sum (map (fun a => S (size a)) (x :: xs))
            <= length (join_with (item_sep (ind + 2)) (map (ser (ind + 2)) (x :: xs))) + 1)%nat.
    { apply H; [simpl; lia|]. eapply Forall_impl; [exact IH|]. intros a Ha. apply Ha. }
    set (J := join_with _ _) in *. set (total := list_sum _) in *.
    cbn [length]. rewrite !length_app. cbn [length]. lia.
  - destruct members as [|kv kvs]; [simpl; lia|].
    pose proof (sum_sizes_le_join (fun kv => size (snd kv)) (member_text (ind + 2))
                  (item_sep (ind + 2)) (kv :: kvs)) as H.
    rewrite <- (app_nil_r (ser ind (JObj (kv :: kvs)))), ser_obj_app.
    cbn [size].
    assert (list_sum (map (fun a => S (size (snd a))) (kv :: kvs))
            <= length (join_with (item_sep (ind + 2)) (map (member_text (ind + 2)) (kv :: kvs))) + 1)%nat.
    { apply H; [simpl; lia|]. eapply Forall_impl; [exact IH|].
      intros a Ha. cbn beta in Ha. unfold member_text. rewrite length_app. simpl length.
      specialize (Ha (ind + 2)%nat). lia. }
    set (J := join_with _ _) in *. set (total := list_sum _) in *.
    cbn [length]. rewrite !length_app. cbn [length]. lia.
Qed.

Theorem JSON_parse_stringify v :
  serializable v = true -> JSON_parse (JSON_stringify v) = Got v [].
Proof.
  intros Hs. unfold JSON_parse, JSON_stringify. rewrite chars_str.
  rewrite <- (app_nil_r (ser 0 v)) at 2.
  rewrite parse_ser; [reflexivity|assumption| |reflexivity].
  pose proof (size_le_length v 0). lia.
Qed.

(** ** Argument construction *)

(** C7, as stated, fails: an empty style reference is non-null, and
    [buildMdToDocxArgs] still leaves the flag out. *)
Lemma buildMdToDocxArgs_not_exactly_non_null :
  ~ (forall mdPath outDocx refdoc,
       buildMdToDocxArgs mdPath outDocx refdoc =
       [mdPath; "-o"; outDocx]
         ++ match refdoc with
            | Some r => ["--reference-doc"; r]
            | None => []
            end).
Proof.
  intros H. specialize (H "a.md" "a.docx" (Some EmptyString)). discriminate H.
Qed.

(** C7, amended: [buildMdToDocxArgs] returns the source, ["-o"] and the
    destination, followed by ["--reference-doc"] and the style reference
    exactly when the reference is a non-empty string (never when it is
    omitted, null or empty); [buildDocxToMdArgs] returns the source, ["-o"]
    and the destination. *)
Theorem build_args_exact (mdPath outDocx docxPath outMd : string) (refdoc : option string) :
  buildMdToDocxArgs mdPath outDocx refdoc =
    match refdoc with
    | Some (String c r) => [mdPath; "-o"; outDocx; "--reference-doc"; String c r]
    | Some EmptyString | None => [mdPath; "-o"; outDocx]
    end
  /\ buildDocxToMdArgs docxPath outMd = [docxPath; "-o"; outMd].
Proof.
  split; [|reflexivity]. destruct refdoc as [[|c r]|]; reflexivity.
Qed.

(** ** Conversion failures *)

Lemma has_substring_intro needle before after :
  has_substring needle (before +:+ needle +:+ after).
Proof. now exists before, after. Qed.

Lemma append_assoc (a b c : string) : (a +:+ b) +:+ c = a +:+ (b +:+ c).
Proof.
  induction a as [|ch a IH]; [reflexivity|].
  change (String ch ((a +:+ b) +:+ c) = String ch (a +:+ b +:+ c)). now rewrite IH.
Qed.

Lemma append_empty_r (a : string) : a +:+ EmptyString = a.
Proof.
  induction a as [|ch a IH]; [reflexivity|].
  change (String ch (a +:+ EmptyString) = String ch a). now rewrite IH.
Qed.

Lemma conversion_failure_names direction status :
  has_substring direction (conversion_failure direction status)
  /\ has_substring (str (print_Z status)) (conversion_failure direction status).
Proof.
  unfold conversion_failure. split.
  - apply (has_substring_intro direction "pandoc failed (").
  - exists ("pandoc failed (" +:+ direction +:+ ") with status "), EmptyString.
    now rewrite append_empty_r, !append_assoc.
Qed.

(** C8: with [code] the exit status that [runPandoc] reports (the process's
    own status, or 1 when it reports none), [mdToDocx] returns normally when
    [code] is 0 and otherwise throws an error whose message contains
    "md → docx" and the decimal digits of [code]; [docxToMd] does the same
    with "docx → md". *)
Theorem conversion_exit_code (w : world) (mdPath outDocx docxPath outMd : string)
    (refdoc : option string) (s : state) :
  let forward := spawnSync w "pandoc" (buildMdToDocxArgs mdPath outDocx refdoc) in
  let backward := spawnSync w "pandoc" (buildDocxToMdArgs docxPath outMd) in
  (match status forward with
   | Some 0%Z => (mdToDocx w mdPath outDocx refdoc s).2 = Returned tt
   | Some code => fails_naming "md → docx" code (mdToDocx w mdPath outDocx refdoc s).2
   | None =>
       returns_status 1 (runPandoc w (buildMdToDocxArgs mdPath outDocx refdoc) s).2
       /\ fails_naming "md → docx" 1 (mdToDocx w mdPath outDocx refdoc s).2
   end)
  /\
  (match status backward with
   | Some 0%Z => (docxToMd w docxPath outMd s).2 = Returned tt
   | Some code => fails_naming "docx → md" code (docxToMd w docxPath outMd s).2
   | None =>
       returns_status 1 (runPandoc w (buildDocxToMdArgs docxPath outMd) s).2
       /\ fails_naming "docx → md" 1 (docxToMd w docxPath outMd s).2
   end).
Proof.
  assert (Hrun : forall args,
    runPandoc w args s =
    (with_event (EvSpawn "pandoc" args) s,
     Returned {| result_status := default 1%Z (status (spawnSync w "pandoc" args));
                 result_stdout := spawn_stdout (spawnSync w "pandoc" args);
                 result_stderr := spawn_stderr (spawnSync w "pandoc" args) |}))
    by reflexivity.
  assert (Hfail : forall direction code,
    fails_naming direction code (Threw (Error (conversion_failure direction code)))).
  { intros direction code. exists (conversion_failure direction code).
    split; [reflexivity|apply conversion_failure_names]. }
  cbv zeta. unfold mdToDocx, docxToMd, bind. rewrite !Hrun. cbn [result_status snd].
  split.
  - destruct (status (spawnSync w "pandoc" (buildMdToDocxArgs mdPath outDocx refdoc)))
      as [[|p|p]|]; cbn [default Z.eqb]; try apply Hfail; try reflexivity.
    split; [eexists; split; reflexivity|apply Hfail].
  - destruct (status (spawnSync w "pandoc" (buildDocxToMdArgs docxPath outMd)))
      as [[|p|p]|]; cbn [default Z.eqb]; try apply Hfail; try reflexivity.
    split; [eexists; split; reflexivity|apply Hfail].
Qed.

(** ** House style payload *)

(** C10, as stated, fails: an empty [headerText] is provided, and no
    [createHeader] request is built for it. *)
Lemma header_not_for_every_provided_text :
  ~ (forall options,
       existsb is_createHeader (buildHouseStyleRequests options) = true
       <-> headerText options <> None).
Proof.
  intros H.
  destruct (H {| marginsInch := None; doubleSpacing := None;
                 headerText := Some EmptyString |}) as [_ H2].
  specialize (H2 ltac:(discriminate)). discriminate H2.
Qed.

(** C10, amended: [buildHouseStyleRequests] returns, in this order, one
    [updateDocumentStyle] request that sets the four margins to
    [marginsInch * 72] points (72 when [marginsInch] is left out), then the
    [updateParagraphStyle] request (line spacing 200, range 1 to -1) exactly
    when [doubleSpacing] is true or left out, then a [createHeader] request of
    type DEFAULT exactly when [headerText] is a non-empty string; so there
    are between one and three requests. *)
Theorem buildHouseStyleRequests_exact (options : house_style_options) :
  let requests := buildHouseStyleRequests options in
  requests =
    margins_request (default 1 (marginsInch options) * 72)%float
      :: (if default true (doubleSpacing options)
          then [updateParagraphStyle 1 (-1) 200 "lineSpacing"] else [])
      ++ match headerText options with
         | Some (String _ _) => [createHeader "DEFAULT" 1]
         | Some EmptyString | None => []
         end
  /\ (1 <= length requests <= 3)%nat
  /\ margins_request (1 * 72)%float = margins_request 72%float.
Proof.
  cbv zeta. unfold buildHouseStyleRequests.
  destruct options as [m [[]|] [[|c h]|]]; cbn; repeat split; lia.
Qed.

(** ** Manifest store *)

Lemma files_with_event e s : files (with_event e s) = files s.
Proof. reflexivity. Qed.

Lemma JSON_parse_js_stringify w v s :
  serializable v = true -> JSON_parse_js w (JSON_stringify v) s = (s, Returned v).
Proof. intros H. unfold JSON_parse_js. now rewrite JSON_parse_stringify. Qed.

(** What a completed [writeManifest] leaves, and what [readManifest] makes
    of it. *)
Lemma readManifest_of_text w v p s :
  serializable v = true ->
  files s !! default default_manifest_path p = Some (File (JSON_stringify v)) ->
  readManifest w p s =
  (with_event (EvReadFile (default default_manifest_path p)) s, Returned v).
Proof.
  intros Hv Hf. unfold readManifest, try_catch, bind, fs_readFile.
  rewrite files_with_event, Hf. now rewrite JSON_parse_js_stringify.
Qed.





(** The text of a one-entry manifest: each member on its own line, two
    spaces in. *)
Example stringify_indents_by_two :
  JSON_stringify (JObj [("content/ch1.md", JStr "fileId")]) =
  "{" +:+ nl +:+ "  " +:+ dq +:+ "content/ch1.md" +:+ dq +:+ ": "
      +:+ dq +:+ "fileId" +:+ dq +:+ nl +:+ "}".
Proof. reflexivity. Qed.

(** C5, as stated, fails: when the device fails while [writeManifest] is
    writing, the manifest that was there is gone. *)
Lemma writeManifest_failure_loses_prior_content :
  ~ (forall w obj p s e,
       (writeManifest w obj p s).2 = Threw e ->
       files (writeManifest w obj p s).1 !! default default_manifest_path p
       = files s !! default default_manifest_path p).
Proof.
  intros H.
  specialize (H full_disk_world sample_manifest None
                (state_with {[ ".draftsync.json" := File "{}" ]}) disk_full eq_refl).
  vm_compute in H. discriminate H.
Qed.

(** C5, amended: [writeManifest] makes one [fs.writeFile] call, on the
    manifest path itself (no temporary file, no rename), and touches no other
    path.  When the call returns, the file holds exactly the new text.  When
    it throws, the file is either as it was before (the path could not be
    opened) or holds a prefix of the new text. *)
Theorem writeManifest_writes_in_place (w : world) (obj : json) (p : option string)
    (s : state) :
  let path := default default_manifest_path p in
  let data := JSON_stringify obj in
  let r := writeManifest w obj p s in
  trace r.1 = trace s ++ [EvWriteFile path data]
  /\ (forall q, q <> path -> files r.1 !! q = files s !! q)
  /\ match r.2 with
     | Returned _ => files r.1 !! path = Some (File data)
     | Threw _ =>
         files r.1 !! path = files s !! path
         \/ exists t, files r.1 !! path = Some (File t) /\ is_prefix_of t data
     end.
Proof.
  cbv zeta. unfold writeManifest, fs_writeFile. rewrite files_with_event.
  set (path := default default_manifest_path p).
  set (data := JSON_stringify obj).
  assert (Hother : forall (f : gmap string node) x q,
            q <> path -> <[path := x]> f !! q = f !! q).
  { intros f x q Hq. apply lookup_insert_ne. congruence. }
  destruct (files s !! path) as [[c|]|] eqn:Hf;
    try (destruct (write_fault_of w path) as [|n e]);
    cbn [fst snd files trace with_files with_event];
    (split; [reflexivity|]); (split; [auto|]);
    try apply lookup_insert_eq;
    try (right; eexists; split; [apply lookup_insert_eq|now exists n]).
  all: now left.
Qed.

(** ** Sync commands *)

Lemma only_prints_ret {A} (a : A) : only_prints (ret a).
Proof. now intros s. Qed.

Lemma only_prints_throw {A} e : only_prints (@throw A e).
Proof. now intros s. Qed.

Lemma only_prints_lift {A} (o : outcome A) : only_prints (lift o).
Proof. now intros s. Qed.

Lemma only_prints_log l : only_prints (console_log l).
Proof. now intros s. Qed.

Lemma only_prints_error l : only_prints (console_error l).
Proof. now intros s. Qed.

Lemma only_prints_bind {A B} (m : M A) (k : A -> M B) :
  only_prints m -> (forall a, only_prints (k a)) -> only_prints (bind m k).
Proof.
  intros Hm Hk s. unfold bind. specialize (Hm s).
  destruct (m s) as [s1 [a|e]]; cbn [fst] in *; [|exact Hm].
  destruct (Hk a s1) as [H1 H2]. destruct Hm as [H3 H4]. split; congruence.
Qed.

Lemma only_prints_when b m : only_prints m -> only_prints (when b m).
Proof. destruct b; [auto|intros _; apply only_prints_ret]. Qed.

Create HintDb prints.
#[local] Hint Resolve only_prints_ret only_prints_throw only_prints_lift
  only_prints_log only_prints_error only_prints_when : prints.

Ltac prints :=
  repeat first
    [ apply only_prints_bind; [|intros ?]
    | progress auto with prints
    | match goal with
      | |- only_prints (match ?x with _ => _ end) => destruct x
      | |- only_prints (if ?b then _ else _) => destruct b
      end ].

Lemma push_plan_only_prints options : only_prints (push_plan options).
Proof. unfold push_plan. prints. Qed.

Lemma push_plan_returns options s : (push_plan options s).2 = Returned tt.
Proof.
  destruct options as [[[|c f]|] [[|c' r]|] [] d]; reflexivity.
Qed.

(** [loadManifest] reads the manifest file and does nothing else; what it
    returns depends on the files alone. *)
Lemma loadManifest_effect w s :
  (loadManifest w s).1 = with_event (EvReadFile MANIFEST_FILE) s.
Proof.
  unfold loadManifest, try_catch, bind, fs_readFile, JSON_parse_js.
  destruct (files _ !! MANIFEST_FILE) as [[c|]|]; cbn [error_code]; try reflexivity.
  destruct (JSON_parse c) as [v r|[]]; reflexivity.
Qed.

Lemma loadManifest_outcome w s s' :
  files s = files s' -> (loadManifest w s).2 = (loadManifest w s').2.
Proof.
  intros Hf. unfold loadManifest, try_catch, bind, fs_readFile, JSON_parse_js.
  rewrite !files_with_event, Hf.
  destruct (files s' !! MANIFEST_FILE) as [[c|]|]; cbn [error_code]; try reflexivity.
  destruct (JSON_parse c) as [v r|[]]; reflexivity.
Qed.

Lemma bind_log {A} l (k : unit -> M A) s :
  bind (console_log l) k s = k tt (with_line (Log l) s).
Proof. reflexivity. Qed.

Lemma bind_load {A} w (k : json -> M A) s0 s :
  files s0 = files s ->
  bind (loadManifest w) k s0 =
  match (loadManifest w s).2 with
  | Returned manifest => k manifest (with_event (EvReadFile MANIFEST_FILE) s0)
  | Threw e => (with_event (EvReadFile MANIFEST_FILE) s0, Threw e)
  end.
Proof.
  intros Hf. unfold bind.
  pose proof (loadManifest_effect w s0) as He.
  pose proof (loadManifest_outcome w s0 s Hf) as Ho.
  destruct (loadManifest w s0) as [s1 o]. cbn [fst snd] in *. subst s1 o.
  now destruct (loadManifest w s).2.
Qed.

Lemma run_after_load {A} w (k : json -> M A) s :
  (forall manifest, only_prints (k manifest)) ->
  let r := bind (loadManifest w) k s in
  files r.1 = files s /\ trace r.1 = trace s ++ [EvReadFile MANIFEST_FILE].
Proof.
  intros Hk. cbv zeta. unfold bind.
  pose proof (loadManifest_effect w s) as He.
  destruct (loadManifest w s) as [s1 [manifest|e]]; cbn [fst] in *; subst s1.
  - destruct (Hk manifest (with_event (EvReadFile MANIFEST_FILE) s)) as [H1 H2].
    now rewrite H1, H2.
  - now split.
Qed.

(** C6: a dry-run push returns normally (exit status 0) without touching
    any file or running anything: no manifest read, no conversion, no
    write; it does not look at the source file.  A dry-run pull reads the
    manifest and does nothing else: no conversion, no write. *)
Theorem dry_run_is_pure (w : world) (filePath : string) (options : push_options)
    (s : state) :
  dryRun options = true ->
  let pushed := pushCommand w filePath options s in
  let pulled := pullCommand w filePath {| pull_dryRun := true |} s in
  pushed.2 = Returned tt /\ exit_code pushed.2 = 0%Z
  /\ files pushed.1 = files s /\ trace pushed.1 = trace s
  /\ files pulled.1 = files s
  /\ trace pulled.1 = trace s ++ [EvReadFile MANIFEST_FILE].
Proof.
  intros Hdry. cbv zeta.
  assert (Hpush : pushCommand w filePath options s =
                  push_plan options (with_line (Log ("Pushing " +:+ filePath +:+ " to Google Docs...")) s)).
  { unfold pushCommand. now rewrite Hdry. }
  rewrite Hpush, push_plan_returns.
  destruct (push_plan_only_prints options
              (with_line (Log ("Pushing " +:+ filePath +:+ " to Google Docs...")) s))
    as [Hf Ht].
  repeat split; try assumption.
  - unfold pullCommand. unfold bind at 1. cbn [console_log].
    apply (run_after_load w _ (with_line _ s)). intros manifest.
    cbn [pull_dryRun]. prints.
  - unfold pullCommand. unfold bind at 1. cbn [console_log].
    apply (run_after_load w _ (with_line _ s)). intros manifest.
    cbn [pull_dryRun]. prints.
Qed.

(** A dry run on a source file that does not exist, with every option set. *)
Lemma dry_run_is_pure_witness :
  let options := {| folderId := Some "folder-123"; refdoc := Some "ref.docx";
                    format := true; dryRun := true |} in
  let pushed := pushCommand sample_world "does-not-exist.md" options sample_state in
  let pulled := pullCommand sample_world "does-not-exist.md" {| pull_dryRun := true |}
                  sample_state in
  pushed.2 = Returned tt /\ exit_code pushed.2 = 0%Z
  /\ files pushed.1 = files sample_state /\ trace pushed.1 = trace sample_state
  /\ files pulled.1 = files sample_state
  /\ trace pulled.1 = trace sample_state ++ [EvReadFile MANIFEST_FILE].
Proof.
  apply (dry_run_is_pure sample_world "does-not-exist.md"
           {| folderId := Some "folder-123"; refdoc := Some "ref.docx";
              format := true; dryRun := true |} sample_state).
  reflexivity.
Defined.

Lemma unlinked_has_no_gdocId manifest filePath ms entries :
  manifest = JObj ms -> assoc "files" ms = Some (JObj entries) ->
  remote_id_of manifest filePath = None ->
  file_info manifest filePath = lift (Returned (assoc filePath entries))
  /\ has_gdocId (assoc filePath entries) = false.
Proof.
  intros -> Hfiles Hid. split.
  - unfold file_info, bind, lift. cbn [get_prop]. now rewrite Hfiles.
  - unfold remote_id_of in Hid. rewrite Hfiles in Hid.
    unfold has_gdocId, gdocId_of.
    destruct (assoc filePath entries) as [[| b | z | t | l | entry]|];
      try reflexivity; cbn [truthy get_prop andb].
    + now rewrite andb_false_r.
    + now rewrite andb_false_r.
    + now rewrite andb_false_r.
    + destruct (assoc "gdocId" entry) as [id|]; [|reflexivity].
      destruct (truthy (Some id)); [discriminate|reflexivity].
Qed.



(** C2, as stated, fails: with Pandoc missing the conversion step of a push
    throws, and the command still ends with exit status 0. *)
Lemma failed_push_exits_zero :
  ~ (forall w filePath options s e,
       dryRun options = false ->
       (push_steps w filePath options (push_started filePath s)).2 = Threw e ->
       exit_code (pushCommand w filePath options s).2 <> 0%Z).
Proof.
  intros H.
  apply (H no_pandoc_world "content/ch1.md" real_push sample_state (Error not_installed));
    vm_compute; reflexivity.
Qed.

Lemma pushCommand_real w filePath options s :
  dryRun options = false ->
  pushCommand w filePath options s =
  try_catch (push_steps w filePath options)
    (fun error => console_error ("✗ Error: " +:+ error_message error))
    (push_started filePath s).
Proof. intros H. unfold pushCommand. now rewrite H. Qed.

Lemma try_catch_reports (m : M unit) s :
  let r := try_catch m
             (fun error => console_error ("✗ Error: " +:+ error_message error)) s in
  r.2 = Returned tt
  /\ forall e, (m s).2 = Threw e ->
               LogError ("✗ Error: " +:+ error_message e) ∈ console r.1.
Proof.
  cbv zeta. unfold try_catch.
  destruct (m s) as [s1 [[]|e']]; cbn [snd fst]; split; try reflexivity.
  - discriminate.
  - intros e [= ->]. cbn. apply elem_of_app. right.
    apply list_elem_of_singleton. reflexivity.
Qed.

(** C2, amended: a push never rejects: whatever fails inside it is caught,
    a line "✗ Error: " followed by the error's message goes to stderr, and
    the command returns, so the process exits with status 0.  A pull rejects
    only when the manifest cannot be loaded or has no [files] to look in;
    once the manifest is loaded, an unlinked file is reported on stderr
    ("✗ No Google Doc linked to " and the path), any later failure is
    reported as "✗ Error: " and its message, and in both cases the command
    returns and the process exits with status 0. *)
Theorem failures_are_printed_and_exit_zero (w : world) (filePath : string)
    (options : push_options) (pull_opts : pull_options) (s : state) :
  let pushed := pushCommand w filePath options s in
  let pulled := pullCommand w filePath pull_opts s in
  exit_code pushed.2 = 0%Z
  /\ (dryRun options = false ->
      forall e, (push_steps w filePath options (push_started filePath s)).2 = Threw e ->
                LogError ("✗ Error: " +:+ error_message e) ∈ console pushed.1)
  /\ match (loadManifest w s).2 with
     | Threw e => pulled.2 = Threw e
     | Returned manifest =>
         match (file_info manifest filePath s).2 with
         | Threw e => pulled.2 = Threw e
         | Returned fileInfo =>
             exit_code pulled.2 = 0%Z
             /\ (has_gdocId fileInfo = false ->
                 LogError ("✗ No Google Doc linked to " +:+ filePath) ∈ console pulled.1)
             /\ (has_gdocId fileInfo = true -> pull_dryRun pull_opts = false ->
                 forall e,
                   (pull_steps w filePath manifest (pull_started filePath s)).2 = Threw e ->
                   LogError ("✗ Error: " +:+ error_message e) ∈ console pulled.1)
         end
     end.
Proof.
  cbv zeta. split; [|split].
  - destruct (dryRun options) eqn:Hdry.
    + unfold pushCommand. rewrite Hdry. unfold bind at 1. cbn [console_log].
      now rewrite push_plan_returns.
    + rewrite pushCommand_real by assumption.
      now rewrite (proj1 (try_catch_reports _ _)).
  - intros Hdry e He. rewrite pushCommand_real by assumption.
    now apply try_catch_reports.
  - unfold pullCommand. rewrite bind_log.
    rewrite (bind_load w _ _ s) by reflexivity.
    fold (pull_started filePath s).
    destruct (loadManifest w s).2 as [manifest|e]; [|reflexivity].
    unfold file_info, bind, lift. cbn [snd].
    destruct (get_prop (Some manifest) "files") as [filesv|e]; [|reflexivity].
    destruct (get_prop filesv filePath) as [fileInfo|e]; [|reflexivity].
    cbn [snd]. destruct (has_gdocId fileInfo); cbn [negb].
    + destruct (pull_dryRun pull_opts).
      * repeat split; try discriminate.
      * pose proof (try_catch_reports (pull_steps w filePath manifest)
                      (pull_started filePath s)) as [Hr Hc]. cbv zeta in Hr, Hc.
        rewrite Hr. repeat split; [discriminate|]. intros _ _ e He. now apply Hc.
    + repeat split; try discriminate. intros _. cbn.
      apply elem_of_app. left. apply elem_of_app. right.
      apply list_elem_of_singleton. reflexivity.
Qed.

(** C1, on this code: pushing a file that is already linked succeeds and
    leaves the manifest untouched (no write; the entry keeps its old
    [lastSync]), while pulling the same file, and pushing an unlinked one,
    stamp the entry with the time of the operation. *)
Theorem push_of_linked_file_keeps_old_lastSync :
  let pushed := pushCommand sample_world "content/ch1.md" real_push sample_state in
  let pulled := pullCommand sample_world "content/ch1.md" {| pull_dryRun := false |}
                  sample_state in
  let created := pushCommand sample_world "content/ch2.md" real_push sample_state in
  now sample_world = "2026-02-02T10:00:00.000Z"
  /\ pushed.2 = Returned tt
  /\ last (console pushed.1)
     = Some (Log "  View at: https://docs.google.com/document/d/abc123/edit")
  /\ files pushed.1 = files sample_state
  /\ Forall (fun e => forall p d, e <> EvWriteFile p d) (trace pushed.1)
  /\ recorded_lastSync pushed.1 "content/ch1.md" = Some (JStr "2025-01-01T00:00:00.000Z")
  /\ recorded_lastSync pulled.1 "content/ch1.md" = Some (JStr "2026-02-02T10:00:00.000Z")
  /\ recorded_lastSync created.1 "content/ch2.md" = Some (JStr "2026-02-02T10:00:00.000Z").
Proof.
  cbv zeta. repeat split; try (vm_compute; reflexivity).
  vm_compute. repeat constructor; discriminate.
Qed.

(** *** A push of a linked file never writes *)

Lemma only_prints_keeps {A} F (m : M A) : only_prints m -> keeps_files_at F m.
Proof. intros H s Hs. destruct (H s) as [Hf _]. congruence. Qed.

Lemma keeps_bind {A B} F (m : M A) (k : A -> M B) :
  keeps_files_at F m ->
  (forall s a, files s = F -> (m s).2 = Returned a -> keeps_files_at F (k a)) ->
  keeps_files_at F (bind m k).
Proof.
  intros Hm Hk s Hs. unfold bind. specialize (Hm s Hs). specialize (Hk s).
  destruct (m s) as [s1 [a|e]]; cbn [fst snd] in *; [|exact Hm].
  now apply (Hk a Hs eq_refl).
Qed.

Lemma keeps_bind_any {A B} F (m : M A) (k : A -> M B) :
  keeps_files_at F m -> (forall a, keeps_files_at F (k a)) ->
  keeps_files_at F (bind m k).
Proof. intros Hm Hk. apply keeps_bind; auto. Qed.

Lemma keeps_try_catch {A} F (m : M A) h :
  keeps_files_at F m -> (forall e, keeps_files_at F (h e)) ->
  keeps_files_at F (try_catch m h).
Proof.
  intros Hm Hh s Hs. unfold try_catch. specialize (Hm s Hs).
  destruct (m s) as [s1 [a|e]]; cbn [fst] in *; [exact Hm|now apply Hh].
Qed.

Lemma keeps_emit F e : keeps_files_at F (emit e).
Proof. now intros s Hs. Qed.

Lemma keeps_log F l : keeps_files_at F (console_log l).
Proof. now intros s Hs. Qed.

Lemma keeps_ret {A} F (a : A) : keeps_files_at F (ret a).
Proof. now intros s Hs. Qed.

Lemma keeps_throw {A} F e : keeps_files_at F (@throw A e).
Proof. now intros s Hs. Qed.

Lemma keeps_when F b m : keeps_files_at F m -> keeps_files_at F (when b m).
Proof. destruct b; [auto|intros _; apply keeps_ret]. Qed.

Create HintDb keeps.
#[local] Hint Resolve keeps_emit keeps_log keeps_ret keeps_throw keeps_when : keeps.

Ltac keeps :=
  repeat first
    [ apply keeps_bind_any; [|intros ?]
    | progress auto with keeps
    | match goal with
      | |- keeps_files_at _ (match ?x with _ => _ end) => destruct x
      | |- keeps_files_at _ (if ?b then _ else _) => destruct b
      end ].

Lemma keeps_authenticate F w : keeps_files_at F (authenticate w).
Proof.
  unfold authenticate. keeps.
  induction (auth_lines w) as [|l ls IH]; cbn [fold_right]; keeps.
Qed.

Lemma keeps_convertMarkdownToDocx F w mdPath refdocPath :
  keeps_files_at F (convertMarkdownToDocx w mdPath refdocPath).
Proof.
  unfold convertMarkdownToDocx, checkPandocInstalled, run_conversion, child_exec,
    fs_mkdir.
  keeps.
Qed.

Lemma keeps_formatDocument F w auth docId :
  keeps_files_at F (formatDocument w auth docId).
Proof. unfold formatDocument. keeps. Qed.

Lemma keeps_loadManifest F w : keeps_files_at F (loadManifest w).
Proof. intros s Hs. now rewrite loadManifest_effect. Qed.

Lemma linked_has_gdocId manifest filePath id :
  remote_id_of manifest filePath = Some id ->
  exists fileInfo,
    file_info manifest filePath = lift (Returned fileInfo)
    /\ has_gdocId fileInfo = true.
Proof.
  unfold remote_id_of. destruct manifest as [| | | | |ms]; try discriminate.
  destruct (assoc "files" ms) as [[| | | | |entries]|] eqn:Hf; try discriminate.
  destruct (assoc filePath entries) as [[| | | | |entry]|] eqn:He; try discriminate.
  destruct (assoc "gdocId" entry) as [v|] eqn:Hg; [|discriminate].
  destruct (truthy (Some v)) eqn:Ht; [|discriminate]. intros _.
  exists (Some (JObj entry)). split.
  - unfold file_info, bind, lift. cbn [get_prop]. rewrite Hf.
    cbn [get_prop]. now rewrite He.
  - unfold has_gdocId, gdocId_of. cbn [get_prop truthy andb]. now rewrite Hg.
Qed.

(** When the manifest records a remote id for the file, [pushCommand]
    leaves every file as it was, whatever else happens: the entry's
    [lastSync] is never refreshed. *)
Lemma push_of_linked_file_never_writes (w : world) (filePath : string)
    (options : push_options) (s : state) (manifest id : json) :
  (loadManifest w s).2 = Returned manifest ->
  remote_id_of manifest filePath = Some id ->
  files (pushCommand w filePath options s).1 = files s.
Proof.
  intros Hload Hid.
  destruct (linked_has_gdocId manifest filePath id Hid) as (fileInfo & Hinfo & Hlinked).
  enough (Hk : keeps_files_at (files s) (pushCommand w filePath options))
    by now apply Hk.
  unfold pushCommand. apply keeps_bind_any; [apply keeps_log|intros _].
  destruct (dryRun options).
  { apply only_prints_keeps, push_plan_only_prints. }
  apply keeps_try_catch; [|intros e; now intros s' Hs'].
  unfold push_steps.
  apply keeps_bind_any; [apply keeps_authenticate|intros auth].
  apply keeps_bind_any; [apply keeps_log|intros _].
  apply keeps_bind_any; [apply keeps_convertMarkdownToDocx|intros docxPath].
  apply keeps_bind_any; [apply keeps_log|intros _].
  apply keeps_bind; [apply keeps_loadManifest|intros s1 manifest' Hs1 Hm'].
  rewrite (loadManifest_outcome w s1 s Hs1), Hload in Hm'. injection Hm' as <-.
  rewrite Hinfo.
  apply keeps_bind; [now intros s' Hs'|intros s2 fi _ [= <-]].
  rewrite Hlinked.
  apply keeps_bind_any; [keeps|intros docId].
  apply keeps_bind_any; [|intros _; keeps].
  apply keeps_when. apply keeps_bind_any; [apply keeps_formatDocument|intros _; keeps].
Qed.

(** * The commands end to end

    [init], [link], [status], and what [push] and [pull] leave in the
    manifest; the converters without a working Pandoc; the helpers of the
    builds. *)

(** ** Members of objects *)

Lemma assoc_obj_set_eq o k v : assoc k (obj_set o k v) = Some v.
Proof.
  induction o as [|[k' v'] o IH]; cbn [obj_set assoc].
  - now rewrite String.eqb_refl.
  - destruct (String.eqb k' k) eqn:E; cbn [assoc]; now rewrite E.
Qed.

Lemma assoc_obj_set_ne o k v k' : k' <> k -> assoc k' (obj_set o k v) = assoc k' o.
Proof.
  intros Hne. induction o as [|[k0 v0] o IH]; cbn [obj_set assoc].
  - apply String.eqb_neq in Hne. now rewrite String.eqb_sym, Hne.
  - destruct (String.eqb k0 k) eqn:E; cbn [assoc]; [|now rewrite IH].
    apply String.eqb_eq in E as ->.
    apply String.eqb_neq in Hne. now rewrite String.eqb_sym, Hne.
Qed.

Lemma assoc_elem_of k v (o : list (string * json)) :
  assoc k o = Some v -> (k, v) ∈ o.
Proof.
  induction o as [|[k' v'] o IH]; cbn [assoc]; [discriminate|].
  destruct (String.eqb_spec k' k) as [->|_].
  - intros [= ->]. left.
  - intros H. right. auto.
Qed.

Lemma elem_of_obj_set o k v k' v' :
  (k', v') ∈ obj_set o k v -> (k', v') = (k, v) \/ (k', v') ∈ o.
Proof.
  induction o as [|[k0 v0] o IH]; cbn [obj_set].
  - intros ->%list_elem_of_singleton. now left.
  - destruct (String.eqb_spec k0 k) as [->|Hne].
    + intros [->|Hin]%elem_of_cons; [now left|right; now right].
    + intros [->|Hin]%elem_of_cons; [right; left|].
      destruct (IH Hin) as [->|Hin']; [now left|right; now right].
Qed.

Lemma obj_set_keys o k v :
  map fst (obj_set o k v) = if decide (k ∈ map fst o) then map fst o else map fst o ++ [k].
Proof.
  induction o as [|[k' v'] o IH]; cbn [obj_set map fst].
  - rewrite decide_False; [reflexivity|]. apply not_elem_of_nil.
  - destruct (String.eqb_spec k' k) as [->|Hne]; cbn [map fst].
    + rewrite decide_True; [reflexivity|]. left.
    + rewrite IH. destruct (decide (k ∈ map fst o)) as [Hin|Hout].
      * rewrite decide_True; [reflexivity|]. now right.
      * rewrite decide_False; [reflexivity|].
        intros [?|?]%elem_of_cons; congruence.
Qed.

Lemma obj_set_NoDup o k v : NoDup (map fst o) -> NoDup (map fst (obj_set o k v)).
Proof.
  intros Hnd. rewrite obj_set_keys. destruct (decide _) as [|Hout]; [assumption|].
  apply NoDup_app. repeat split; [assumption| |apply NoDup_singleton].
  intros x Hx ->%list_elem_of_singleton. contradiction.
Qed.

Lemma obj_set_values (P : json -> bool) o k v :
  forallb (fun kv => P (snd kv)) o = true -> P v = true ->
  forallb (fun kv => P (snd kv)) (obj_set o k v) = true.
Proof.
  intros Ho Hv. induction o as [|[k' v'] o IH]; cbn [obj_set forallb snd] in *.
  - now rewrite Hv.
  - apply andb_true_iff in Ho as [H1 H2].
    destruct (String.eqb k' k); cbn [forallb snd]; apply andb_true_iff; auto.
Qed.

Lemma serializable_obj_set o k v :
  serializable (JObj o) = true -> serializable v = true ->
  serializable (JObj (obj_set o k v)) = true.
Proof.
  cbn [serializable]. intros [Hnd Ho]%andb_true_iff Hv. apply andb_true_iff. split.
  - apply bool_decide_eq_true. apply obj_set_NoDup. now apply bool_decide_eq_true in Hnd.
  - now apply obj_set_values.
Qed.

Lemma serializable_member o k v :
  serializable (JObj o) = true -> assoc k o = Some v -> serializable v = true.
Proof.
  cbn [serializable]. intros [_ Ho]%andb_true_iff Hk.
  apply assoc_elem_of in Hk. rewrite forallb_forall in Ho.
  apply (Ho (k, v)). now apply list_elem_of_In.
Qed.

(** The manifest with the entry of a file replaced. *)
Lemma entry_replaced ms entries filePath entry :
  assoc "files" ms = Some (JObj entries) ->
  let manifest' := JObj (obj_set ms "files" (JObj (obj_set entries filePath entry))) in
  entry_of manifest' filePath = Some entry
  /\ (forall other, other <> filePath ->
                    entry_of manifest' other = entry_of (JObj ms) other)
  /\ (forall k, k <> "files" ->
                get_prop (Some manifest') k = get_prop (Some (JObj ms)) k)
  /\ (serializable (JObj ms) = true -> serializable entry = true ->
      serializable manifest' = true).
Proof.
  intros Hf. cbv zeta. unfold entry_of. rewrite assoc_obj_set_eq, Hf.
  split; [apply assoc_obj_set_eq|]. split; [|split].
  - intros other Hne. now apply assoc_obj_set_ne.
  - intros k Hne. cbn [get_prop]. now rewrite assoc_obj_set_ne.
  - intros Hms He. apply serializable_obj_set; [assumption|].
    apply serializable_obj_set; [|assumption].
    now apply (serializable_member ms "files").
Qed.

Lemma linked_shape manifest filePath id :
  remote_id_of manifest filePath = Some id ->
  exists ms entries entry,
    manifest = JObj ms /\ assoc "files" ms = Some (JObj entries)
    /\ assoc filePath entries = Some (JObj entry)
    /\ assoc "gdocId" entry = Some id /\ truthy (Some id) = true.
Proof.
  unfold remote_id_of. destruct manifest as [| | | | |ms]; try discriminate.
  destruct (assoc "files" ms) as [[| | | | |entries]|] eqn:Hf; try discriminate.
  destruct (assoc filePath entries) as [[| | | | |entry]|] eqn:He; try discriminate.
  destruct (assoc "gdocId" entry) as [v|] eqn:Hg; [|discriminate].
  destruct (truthy (Some v)) eqn:Ht; [|discriminate]. intros [= <-].
  now exists ms, entries, entry.
Qed.

(** ** Runs that return *)

Lemma runs_ret {A} F (a : A) : runs F (ret a) a F.
Proof. now intros s Hs. Qed.

Lemma runs_lift {A} F (a : A) : runs F (lift (Returned a)) a F.
Proof. now intros s Hs. Qed.

Lemma runs_log F l : runs F (console_log l) tt F.
Proof. now intros s Hs. Qed.

Lemma runs_emit F e : runs F (emit e) tt F.
Proof. now intros s Hs. Qed.

Lemma runs_bind {A B} F F1 F2 (m : M A) (k : A -> M B) a b :
  runs F m a F1 -> runs F1 (k a) b F2 -> runs F (bind m k) b F2.
Proof.
  intros Hm Hk s Hs. unfold bind. destruct (Hm s Hs) as [Ho Hf].
  destruct (m s) as [s1 o]. cbn [fst snd] in *. subst o. now apply Hk.
Qed.

Lemma runs_when F b m : runs F m tt F -> runs F (when b m) tt F.
Proof. destruct b; [auto|intros _; apply runs_ret]. Qed.

Lemma runs_try_catch {A} F F' (m : M A) h a :
  runs F m a F' -> runs F (try_catch m h) a F'.
Proof.
  intros Hm s Hs. unfold try_catch. destruct (Hm s Hs) as [Ho Hf].
  destruct (m s) as [s1 o]. cbn [fst snd] in *. now subst o.
Qed.

Create HintDb runs.
#[local] Hint Resolve runs_ret runs_lift runs_log runs_emit runs_when : runs.

Ltac run :=
  repeat first
    [ progress eauto with runs
    | eapply runs_bind; [solve [eauto with runs]|] ].

Lemma runs_authenticate F w : runs F (authenticate w) (auth_result w) F.
Proof.
  unfold authenticate. run.
  eapply runs_bind; [|apply runs_ret].
  induction (auth_lines w) as [|l ls IH]; cbn [fold_right]; run.
Qed.

Lemma runs_child_exec F w command : runs F (child_exec w command) (exec w command) F.
Proof. unfold child_exec. run. Qed.

Lemma runs_checkPandocInstalled F w :
  pandoc_works w -> runs F (checkPandocInstalled w) true F.
Proof.
  intros (Hexec & _). unfold checkPandocInstalled.
  eapply runs_bind; [apply runs_child_exec|].
  destruct (Hexec "pandoc --version") as (so & se & ->). apply runs_ret.
Qed.

Lemma runs_fs_mkdir F w dir : pandoc_works w -> runs F (fs_mkdir w dir) tt F.
Proof.
  intros (_ & Hmk & _). unfold fs_mkdir. run. rewrite Hmk. apply runs_ret.
Qed.

Lemma runs_run_conversion F w command outputPath :
  pandoc_works w -> runs F (run_conversion w command outputPath) outputPath F.
Proof.
  intros (Hexec & _). unfold run_conversion.
  eapply runs_bind; [apply runs_child_exec|].
  destruct (Hexec command) as (so & se & ->). run.
Qed.

Lemma runs_convertMarkdownToDocx F w mdPath refdocPath :
  pandoc_works w ->
  runs F (convertMarkdownToDocx w mdPath refdocPath)
    (path_join w "dist" (basename w mdPath ".md" +:+ ".docx")) F.
Proof.
  intros Hw. unfold convertMarkdownToDocx. run.
  eapply runs_bind; [now apply runs_checkPandocInstalled|]. cbn [negb].
  eapply runs_bind; [now apply runs_fs_mkdir|].
  now apply runs_run_conversion.
Qed.

Lemma runs_convertDocxToMarkdown F w docxPath outputPath :
  pandoc_works w -> runs F (convertDocxToMarkdown w docxPath outputPath) outputPath F.
Proof.
  intros Hw. unfold convertDocxToMarkdown. run.
  eapply runs_bind; [now apply runs_checkPandocInstalled|]. cbn [negb].
  eapply runs_bind; [now apply runs_fs_mkdir|].
  now apply runs_run_conversion.
Qed.

Lemma runs_createDoc F w auth title docxPath folder :
  runs F (createDoc w auth title docxPath folder)
    ("stub_" +:+ substring_from 7 (random36 w)) F.
Proof.
  unfold createDoc. run. eapply runs_bind; [|apply runs_ret].
  destruct folder; run.
Qed.

Lemma runs_formatDocument F w auth docId : runs F (formatDocument w auth docId) tt F.
Proof. unfold formatDocument. run. Qed.

Lemma runs_loadManifest w s manifest :
  (loadManifest w s).2 = Returned manifest ->
  runs (files s) (loadManifest w) manifest (files s).
Proof.
  intros Hload s' Hs'. split.
  - now rewrite (loadManifest_outcome w s' s Hs').
  - now rewrite loadManifest_effect.
Qed.

(** A manifest that loads is not a directory. *)
Lemma loadManifest_not_directory w s manifest :
  (loadManifest w s).2 = Returned manifest ->
  files s !! MANIFEST_FILE <> Some Directory.
Proof.
  intros Hload Hdir. revert Hload.
  unfold loadManifest, try_catch, bind, fs_readFile.
  rewrite files_with_event, Hdir. cbn [error_code].
  rewrite decide_False by discriminate. discriminate.
Qed.

Lemma runs_saveManifest F w manifest :
  write_fault_of w MANIFEST_FILE = Completes ->
  F !! MANIFEST_FILE <> Some Directory ->
  runs F (saveManifest w manifest) tt
    (<[MANIFEST_FILE := File (JSON_stringify manifest)]> F).
Proof.
  intros Hw Hdir s Hs. unfold saveManifest, fs_writeFile.
  rewrite files_with_event, Hs, Hw.
  destruct (F !! MANIFEST_FILE) as [[c|]|]; try contradiction;
    cbn [fst snd files with_files with_event]; now rewrite ?Hs.
Qed.

Lemma loadManifest_of_text w v s :
  serializable v = true ->
  files s !! MANIFEST_FILE = Some (File (JSON_stringify v)) ->
  (loadManifest w s).2 = Returned v.
Proof.
  intros Hv Hf. unfold loadManifest, try_catch, bind, fs_readFile.
  rewrite files_with_event, Hf. now rewrite JSON_parse_js_stringify.
Qed.

Lemma runs_assign_entry F ms entries filePath entry :
  assoc "files" ms = Some (JObj entries) ->
  runs F (assign_entry (JObj ms) filePath entry)
    (JObj (obj_set ms "files" (JObj (obj_set entries filePath entry)))) F.
Proof.
  intros Hf. unfold assign_entry. cbn [get_prop]. rewrite Hf. cbn [set_prop].
  run.
Qed.

(** When a command leaves the rebuilt manifest on disk, loading it gives
    the new entry. *)
Lemma records_entry w s1 ms entries filePath entry :
  assoc "files" ms = Some (JObj entries) ->
  serializable (JObj ms) = true -> serializable entry = true ->
  files s1 !! MANIFEST_FILE
  = Some (File (JSON_stringify
                  (JObj (obj_set ms "files" (JObj (obj_set entries filePath entry)))))) ->
  manifest_records w s1 (JObj ms) filePath entry.
Proof.
  intros Hf Hms He Hs1.
  destruct (entry_replaced ms entries filePath entry Hf) as (H1 & H2 & H3 & H4).
  eexists. split; [|split; [exact H1|split; [exact H2|exact H3]]].
  apply loadManifest_of_text; auto.
Qed.

(** ** Loading and saving the manifest *)

(** X1: a manifest file whose text is not JSON is not taken for a missing
    one: [readManifest] and [loadManifest] both throw the SyntaxError of
    [JSON.parse]; only ENOENT is turned into a default. *)
Theorem malformed_manifest_is_rejected (w : world) (p : option string) (s : state)
    (text : string) :
  JSON_parse text = Bad NotJSON ->
  files s !! default default_manifest_path p = Some (File text) ->
  files s !! MANIFEST_FILE = Some (File text) ->
  (readManifest w p s).2 = Threw (SyntaxError (json_error_message w text))
  /\ (loadManifest w s).2 = Threw (SyntaxError (json_error_message w text)).
Proof.
  intros Hbad Hp Hm.
  unfold readManifest, loadManifest, try_catch, bind, fs_readFile, JSON_parse_js.
  rewrite !files_with_event, Hp, Hm, Hbad. cbn [throw error_code].
  rewrite decide_False by discriminate. now split.
Qed.

(** The manifest of the unit tests that holds an unfinished object. *)
Lemma malformed_manifest_is_rejected_witness :
  (readManifest sample_world None corrupt_state).2
  = Threw (SyntaxError (json_error_message sample_world "{ invalid json"))
  /\ (loadManifest sample_world corrupt_state).2
     = Threw (SyntaxError (json_error_message sample_world "{ invalid json")).
Proof.
  apply (malformed_manifest_is_rejected sample_world None corrupt_state "{ invalid json");
    vm_compute; reflexivity.
Defined.



Lemma bind_load_fails {A} w (k : json -> M A) s0 s e :
  files s0 = files s -> (loadManifest w s).2 = Threw e ->
  bind (loadManifest w) k s0 = (with_event (EvReadFile MANIFEST_FILE) s0, Threw e).
Proof. intros Hf He. rewrite (bind_load w k s0 s Hf). now rewrite He. Qed.

(** X3: when the manifest cannot be loaded (it is not JSON, or it is a
    directory), [link], [pull] and [status] reject with the error of the
    load and leave every file as it was; [link] in particular does not
    overwrite the manifest it could not read. *)
Theorem unreadable_manifest_stops_commands (toLocaleString : jsval -> string)
    (w : world) (filePath gdocId : string) (options : pull_options) (s : state)
    (e : js_error) :
  (loadManifest w s).2 = Threw e ->
  let linked := linkCommand w filePath gdocId s in
  let pulled := pullCommand w filePath options s in
  let listed := statusCommand toLocaleString w s in
  linked.2 = Threw e /\ pulled.2 = Threw e /\ listed.2 = Threw e
  /\ files linked.1 = files s /\ files pulled.1 = files s /\ files listed.1 = files s
  /\ trace linked.1 = trace s ++ [EvReadFile MANIFEST_FILE].
Proof.
  intros He. cbv zeta.
  unfold linkCommand, pullCommand, statusCommand. rewrite !bind_log.
  rewrite !(bind_load_fails w _ _ s e) by (reflexivity || assumption).
  repeat split.
Qed.

(** The three commands on a manifest that is not JSON. *)
Lemma unreadable_manifest_stops_commands_witness :
  let e := SyntaxError (json_error_message sample_world "{ invalid json") in
  let linked := linkCommand sample_world "content/ch1.md" "abc123" corrupt_state in
  let pulled := pullCommand sample_world "content/ch1.md" {| pull_dryRun := false |}
                  corrupt_state in
  let listed := statusCommand to_String_js sample_world corrupt_state in
  linked.2 = Threw e /\ pulled.2 = Threw e /\ listed.2 = Threw e
  /\ files linked.1 = files corrupt_state /\ files pulled.1 = files corrupt_state
  /\ files listed.1 = files corrupt_state
  /\ trace linked.1 = trace corrupt_state ++ [EvReadFile MANIFEST_FILE].
Proof.
  apply (unreadable_manifest_stops_commands to_String_js sample_world "content/ch1.md"
           "abc123" {| pull_dryRun := false |} corrupt_state).
  vm_compute. reflexivity.
Defined.

(** ** [link] *)

Lemma linkCommand_runs w filePath gdocId s ms entries :
  (loadManifest w s).2 = Returned (JObj ms) ->
  assoc "files" ms = Some (JObj entries) ->
  write_fault_of w MANIFEST_FILE = Completes ->
  runs (files s) (linkCommand w filePath gdocId) tt
    (<[MANIFEST_FILE :=
         File (JSON_stringify
                 (JObj (obj_set ms "files"
                          (JObj (obj_set entries filePath
                                   (new_entry (JStr gdocId) (now w)))))))]> (files s)).
Proof.
  intros Hload Hf Hw. unfold linkCommand. run.
  eapply runs_bind; [apply (runs_loadManifest w s _ Hload)|].
  eapply runs_bind; [apply (runs_assign_entry _ ms entries _ _ Hf)|].
  eapply runs_bind; [|apply runs_log].
  apply runs_saveManifest; [assumption|].
  now apply (loadManifest_not_directory w s (JObj ms)).
Qed.

(** What [loadManifest] returns after a [link]. *)
Lemma linkCommand_then_load w filePath gdocId s ms entries :
  (loadManifest w s).2 = Returned (JObj ms) ->
  assoc "files" ms = Some (JObj entries) ->
  serializable (JObj ms) = true ->
  write_fault_of w MANIFEST_FILE = Completes ->
  (loadManifest w (linkCommand w filePath gdocId s).1).2
  = Returned (JObj (obj_set ms "files"
                      (JObj (obj_set entries filePath
                               (new_entry (JStr gdocId) (now w)))))).
Proof.
  intros Hload Hf Hser Hw.
  destruct (linkCommand_runs w filePath gdocId s ms entries Hload Hf Hw s eq_refl)
    as [_ Hdisk].
  destruct (entry_replaced ms entries filePath (new_entry (JStr gdocId) (now w)) Hf)
    as (_ & _ & _ & Hser').
  apply loadManifest_of_text; [now apply Hser'|].
  rewrite Hdisk. apply lookup_insert_eq.
Qed.





(** ** [push] and [pull] that go through *)

Lemma push_steps_runs w filePath options s ms entries :
  pandoc_works w ->
  (loadManifest w s).2 = Returned (JObj ms) ->
  assoc "files" ms = Some (JObj entries) ->
  remote_id_of (JObj ms) filePath = None ->
  runs (files s) (push_steps w filePath options) tt
    (<[MANIFEST_FILE :=
         File (JSON_stringify
                 (JObj (obj_set ms "files"
                          (JObj (obj_set entries filePath
                                   (new_entry
                                      (JStr ("stub_" +:+ substring_from 7 (random36 w)))
                                      (now w)))))))]> (files s)).
Proof.
  intros Hw Hload Hf Hid.
  destruct (unlinked_has_no_gdocId (JObj ms) filePath ms entries eq_refl Hf Hid)
    as [Hinfo Hno].
  unfold push_steps.
  eapply runs_bind; [apply runs_authenticate|].
  eapply runs_bind; [apply runs_log|].
  eapply runs_bind; [now apply runs_convertMarkdownToDocx|].
  eapply runs_bind; [apply runs_log|].
  eapply runs_bind; [apply (runs_loadManifest w s _ Hload)|].
  rewrite Hinfo. eapply runs_bind; [apply runs_lift|]. rewrite Hno.
  eapply runs_bind.
  - eapply runs_bind; [apply runs_createDoc|].
    eapply runs_bind; [apply runs_log|].
    eapply runs_bind; [apply (runs_assign_entry _ ms entries _ _ Hf)|].
    eapply runs_bind; [|apply runs_ret].
    apply runs_saveManifest; [apply Hw|].
    now apply (loadManifest_not_directory w s (JObj ms)).
  - eapply runs_bind.
    + apply runs_when. eapply runs_bind; [apply runs_formatDocument|apply runs_log].
    + eapply runs_bind; apply runs_log.
Qed.



Lemma pull_steps_runs w filePath s ms entries entry :
  pandoc_works w ->
  files s !! MANIFEST_FILE <> Some Directory ->
  assoc "files" ms = Some (JObj entries) ->
  assoc filePath entries = Some (JObj entry) ->
  runs (files s) (pull_steps w filePath (JObj ms)) tt
    (<[MANIFEST_FILE :=
         File (JSON_stringify
                 (JObj (obj_set ms "files"
                          (JObj (obj_set entries filePath
                                   (JObj (obj_set entry "lastSync" (JStr (now w)))))))))]>
       (files s)).
Proof.
  intros Hw Hdir Hf He. unfold pull_steps.
  eapply runs_bind; [apply runs_authenticate|].
  eapply runs_bind; [apply runs_log|].
  eapply runs_bind; [apply runs_log|].
  eapply runs_bind; [now apply runs_convertDocxToMarkdown|].
  eapply runs_bind; [apply runs_log|].
  eapply runs_bind.
  { unfold file_info. cbn [get_prop]. rewrite Hf.
    eapply runs_bind; [apply runs_lift|]. cbn [get_prop]. rewrite He. apply runs_lift. }
  cbn [set_prop].
  eapply runs_bind; [apply runs_lift|].
  eapply runs_bind; [apply (runs_assign_entry _ ms entries _ _ Hf)|].
  eapply runs_bind; [|apply runs_log].
  apply runs_saveManifest; [apply Hw|assumption].
Qed.

(** X7: a pull of a linked file, when Pandoc and the manifest write
    succeed, returns and stamps the entry: the manifest then on disk holds
    for the file its old entry with [lastSync] set to the current time (the
    remote id and any other member of the entry are kept); every other entry
    and member of the manifest is as before. *)
Theorem pull_stamps_lastSync (w : world) (filePath : string) (s : state)
    (manifest id : json) :
  pandoc_works w ->
  (loadManifest w s).2 = Returned manifest ->
  serializable manifest = true ->
  remote_id_of manifest filePath = Some id ->
  let r := pullCommand w filePath {| pull_dryRun := false |} s in
  r.2 = Returned tt
  /\ exists entry,
       entry_of manifest filePath = Some (JObj entry)
       /\ assoc "gdocId" entry = Some id
       /\ manifest_records w r.1 manifest filePath
            (JObj (obj_set entry "lastSync" (JStr (now w)))).
Proof.
  intros Hw Hload Hser Hid. cbv zeta.
  destruct (linked_shape manifest filePath id Hid)
    as (ms & entries & entry & -> & Hf & He & Hg & Ht).
  destruct (linked_has_gdocId (JObj ms) filePath id Hid) as (fileInfo & Hinfo & Hlinked).
  assert (Hdir := loadManifest_not_directory w s (JObj ms) Hload).
  assert (Hruns : runs (files s) (pullCommand w filePath {| pull_dryRun := false |}) tt
                    (<[MANIFEST_FILE :=
                         File (JSON_stringify
                                 (JObj (obj_set ms "files"
                                    (JObj (obj_set entries filePath
                                       (JObj (obj_set entry "lastSync"
                                                (JStr (now w)))))))))]> (files s))).
  { unfold pullCommand.
    eapply runs_bind; [apply runs_log|].
    eapply runs_bind; [apply (runs_loadManifest w s _ Hload)|].
    rewrite Hinfo. eapply runs_bind; [apply runs_lift|]. rewrite Hlinked.
    cbn [negb pull_dryRun]. apply runs_try_catch.
    now apply pull_steps_runs. }
  destruct (Hruns s eq_refl) as [Ho Hfiles].
  split; [exact Ho|]. exists entry. split; [|split; [exact Hg|]].
  - unfold entry_of. now rewrite Hf.
  - apply (records_entry w _ ms entries); auto.
    + apply serializable_obj_set; [|reflexivity].
      apply (serializable_member entries filePath); [|assumption].
      now apply (serializable_member ms "files").
    + rewrite Hfiles. apply lookup_insert_eq.
Qed.

(** A pull of the linked sample chapter. *)
Lemma pull_stamps_lastSync_witness :
  let r := pullCommand sample_world "content/ch1.md" {| pull_dryRun := false |}
             sample_state in
  r.2 = Returned tt
  /\ exists entry,
       entry_of sample_manifest "content/ch1.md" = Some (JObj entry)
       /\ assoc "gdocId" entry = Some (JStr "abc123")
       /\ manifest_records sample_world r.1 sample_manifest "content/ch1.md"
            (JObj (obj_set entry "lastSync" (JStr (now sample_world)))).
Proof.
  apply (pull_stamps_lastSync sample_world "content/ch1.md" sample_state sample_manifest
           (JStr "abc123")).
  - split; [|split].
    + intros command. now exists EmptyString, EmptyString.
    + reflexivity.
    + reflexivity.
  - vm_compute. reflexivity.
  - vm_compute. reflexivity.
  - reflexivity.
Defined.

(** ** Without Pandoc, and with a Pandoc that fails *)

Lemma print_lines_exact {A} ls (k : unit -> M A) s :
  bind (fold_right (fun l k => console_log l ;;; k) (ret tt) ls) k s =
  k tt {| files := files s; console := console s ++ map Log ls; trace := trace s |}.
Proof.
  revert s. induction ls as [|l ls IH]; intros s; cbn [fold_right map].
  - unfold bind, ret. rewrite app_nil_r. now destruct s.
  - unfold bind at 1. rewrite bind_log.
    specialize (IH (with_line (Log l) s)). unfold bind at 1 in IH. rewrite IH.
    unfold with_line. cbn [files console trace]. now rewrite <- app_assoc.
Qed.

Lemma authenticate_exact w s :
  authenticate w s =
  ({| files := files s;
      console := console s ++ Log "  [STUB] Authenticating with Google APIs..."
                              :: map Log (auth_lines w);
      trace := trace s ++ [EvAuthenticate] |},
   Returned (auth_result w)).
Proof.
  unfold authenticate. rewrite bind_log. unfold bind at 1. cbn [emit].
  rewrite print_lines_exact. unfold ret, with_event, with_line.
  cbn [files console trace]. now rewrite <- app_assoc.
Qed.

Lemma convertMarkdownToDocx_missing w mdPath refdocPath s :
  pandoc_missing w ->
  convertMarkdownToDocx w mdPath refdocPath s =
  (with_event (EvExec "pandoc --version")
     (with_line (Log ("  Converting " +:+ mdPath +:+ " to DOCX...")) s),
   Threw (Error not_installed)).
Proof.
  intros [message Hm]. unfold convertMarkdownToDocx. rewrite bind_log.
  unfold checkPandocInstalled, child_exec, bind, emit, ret. now rewrite Hm.
Qed.

Lemma convertDocxToMarkdown_missing w docxPath outputPath s :
  pandoc_missing w ->
  convertDocxToMarkdown w docxPath outputPath s =
  (with_event (EvExec "pandoc --version")
     (with_line (Log ("  Converting " +:+ docxPath +:+ " to Markdown...")) s),
   Threw (Error not_installed)).
Proof.
  intros [message Hm]. unfold convertDocxToMarkdown. rewrite bind_log.
  unfold checkPandocInstalled, child_exec, bind, emit, ret. now rewrite Hm.
Qed.

(** X8: the two converters look for Pandoc before anything else: when
    [pandoc --version] fails they throw the not-installed error, having run
    that one command only (no directory made, no conversion started, no file
    touched). *)
Theorem conversion_needs_pandoc (w : world) (mdPath : string) (refdocPath : option string)
    (docxPath outputPath : string) (s : state) :
  pandoc_missing w ->
  let forth := convertMarkdownToDocx w mdPath refdocPath s in
  let back := convertDocxToMarkdown w docxPath outputPath s in
  forth.2 = Threw (Error not_installed)
  /\ back.2 = Threw (Error not_installed)
  /\ files forth.1 = files s /\ files back.1 = files s
  /\ trace forth.1 = trace s ++ [EvExec "pandoc --version"]
  /\ trace back.1 = trace s ++ [EvExec "pandoc --version"].
Proof.
  intros Hw. cbv zeta.
  rewrite convertMarkdownToDocx_missing, convertDocxToMarkdown_missing by assumption.
  repeat split.
Qed.

(** Both directions in the world without Pandoc. *)
Lemma conversion_needs_pandoc_witness :
  let forth := convertMarkdownToDocx no_pandoc_world "content/ch1.md" None sample_state in
  let back := convertDocxToMarkdown no_pandoc_world "dist/ch1.docx" "content/ch1.md"
                sample_state in
  forth.2 = Threw (Error not_installed)
  /\ back.2 = Threw (Error not_installed)
  /\ files forth.1 = files sample_state /\ files back.1 = files sample_state
  /\ trace forth.1 = trace sample_state ++ [EvExec "pandoc --version"]
  /\ trace back.1 = trace sample_state ++ [EvExec "pandoc --version"].
Proof.
  apply (conversion_needs_pandoc no_pandoc_world "content/ch1.md" None "dist/ch1.docx"
           "content/ch1.md" sample_state).
  now exists "Command failed: pandoc --version".
Defined.

Lemma conversion_command_is_not_version_check rest :
  "pandoc " +:+ dq +:+ rest <> "pandoc --version".
Proof. intros H. cbv in H. discriminate H. Qed.

(** X9: when Pandoc is installed and the conversion command itself
    fails, both converters throw an Error whose message is the text
    [Pandoc conversion failed: ] followed by the message of the failure,
    with or without a reference document. *)
Theorem failed_conversion_is_wrapped (w : world) (mdPath : string)
    (refdocPath : option string) (docxPath outputPath : string) (s : state)
    (version warnings message : string) :
  exec w "pandoc --version" = ExecOk version warnings ->
  (forall command, command <> "pandoc --version" -> exec w command = ExecFailed message) ->
  (forall dir, mkdir_error w dir = None) ->
  (convertMarkdownToDocx w mdPath refdocPath s).2
  = Threw (Error ("Pandoc conversion failed: " +:+ message))
  /\ (convertDocxToMarkdown w docxPath outputPath s).2
     = Threw (Error ("Pandoc conversion failed: " +:+ message)).
Proof.
  intros Hv Hfail Hmk. split.
  - unfold convertMarkdownToDocx. rewrite bind_log.
    unfold run_conversion, checkPandocInstalled, child_exec, fs_mkdir, bind, emit, ret.
    rewrite Hv. cbn [negb]. rewrite Hmk. cbn [snd].
    match goal with |- context [exec w ?c] => rewrite (Hfail c) end; [reflexivity|].
    destruct refdocPath as [r|]; [destruct (truthy_string (Some r))|];
      rewrite ?append_assoc; apply conversion_command_is_not_version_check.
  - unfold convertDocxToMarkdown. rewrite bind_log.
    unfold run_conversion, checkPandocInstalled, child_exec, fs_mkdir, bind, emit, ret.
    rewrite Hv. cbn [negb]. rewrite Hmk. cbn [snd].
    match goal with |- context [exec w ?c] => rewrite (Hfail c) end; [reflexivity|].
    rewrite ?append_assoc; apply conversion_command_is_not_version_check.
Qed.

(** Both directions with a Pandoc that cannot open its input. *)
Lemma failed_conversion_is_wrapped_witness :
  (convertMarkdownToDocx broken_pandoc_world "content/ch1.md" None sample_state).2
  = Threw (Error ("Pandoc conversion failed: "
                  +:+ "Command failed: pandoc: openBinaryFile: does not exist"))
  /\ (convertDocxToMarkdown broken_pandoc_world "dist/ch1.docx" "content/ch1.md"
        sample_state).2
     = Threw (Error ("Pandoc conversion failed: "
                     +:+ "Command failed: pandoc: openBinaryFile: does not exist")).
Proof.
  apply (failed_conversion_is_wrapped broken_pandoc_world "content/ch1.md" None
           "dist/ch1.docx" "content/ch1.md" sample_state "pandoc 3.1.9" EmptyString
           "Command failed: pandoc: openBinaryFile: does not exist").
  - reflexivity.
  - intros command Hne. unfold broken_pandoc_world. cbn [exec].
    destruct (String.eqb_spec command "pandoc --version"); [contradiction|reflexivity].
  - reflexivity.
Defined.

(** X10: a push without Pandoc installed changes nothing and says so:
    the command returns, every file is as it was, the only steps taken are the
    authentication and the version check (no manifest read, no document
    created, no write), and the last line printed is the not-installed error
    on stderr. *)
Theorem push_without_pandoc (w : world) (filePath : string) (options : push_options)
    (s : state) :
  pandoc_missing w ->
  dryRun options = false ->
  let r := pushCommand w filePath options s in
  r.2 = Returned tt
  /\ files r.1 = files s
  /\ trace r.1 = trace s ++ [EvAuthenticate; EvExec "pandoc --version"]
  /\ last (console r.1) = Some (LogError ("✗ Error: " +:+ not_installed)).
Proof.
  intros Hw Hdry. cbv zeta.
  remember (pushCommand w filePath options s) as r eqn:Hr.
  rewrite pushCommand_real in Hr by assumption.
  unfold try_catch, push_steps in Hr. unfold bind at 1 in Hr.
  rewrite authenticate_exact, bind_log in Hr. unfold bind at 1 in Hr.
  rewrite convertMarkdownToDocx_missing in Hr by assumption.
  subst r. unfold console_error, with_line, with_event, push_started.
  cbn [fst snd files console trace error_message].
  repeat split.
  - now rewrite <- app_assoc.
  - apply last_snoc.
Qed.

(** A push of the sample chapter in the world without Pandoc. *)
Lemma push_without_pandoc_witness :
  let r := pushCommand no_pandoc_world "content/ch1.md" real_push sample_state in
  r.2 = Returned tt
  /\ files r.1 = files sample_state
  /\ trace r.1 = trace sample_state ++ [EvAuthenticate; EvExec "pandoc --version"]
  /\ last (console r.1) = Some (LogError ("✗ Error: " +:+ not_installed)).
Proof.
  apply (push_without_pandoc no_pandoc_world "content/ch1.md" real_push sample_state).
  - now exists "Command failed: pandoc --version".
  - reflexivity.
Defined.

(** X11: a pull of a linked file without Pandoc installed changes
    nothing: the command returns, every file is as it was (the manifest keeps
    its old [lastSync]), the steps taken are the manifest read, the
    authentication and the version check, and the last line printed is the
    not-installed error on stderr. *)
Theorem pull_without_pandoc (w : world) (filePath : string) (s : state)
    (manifest id : json) :
  pandoc_missing w ->
  (loadManifest w s).2 = Returned manifest ->
  remote_id_of manifest filePath = Some id ->
  let r := pullCommand w filePath {| pull_dryRun := false |} s in
  r.2 = Returned tt
  /\ files r.1 = files s
  /\ trace r.1 = trace s ++ [EvReadFile MANIFEST_FILE; EvAuthenticate;
                             EvExec "pandoc --version"]
  /\ last (console r.1) = Some (LogError ("✗ Error: " +:+ not_installed)).
Proof.
  intros Hw Hload Hid. cbv zeta.
  destruct (linked_has_gdocId manifest filePath id Hid) as (fileInfo & Hinfo & Hlinked).
  remember (pullCommand w filePath {| pull_dryRun := false |} s) as r eqn:Hr.
  unfold pullCommand in Hr. rewrite bind_log in Hr.
  rewrite (bind_load w _ _ s) in Hr by reflexivity. rewrite Hload, Hinfo in Hr.
  unfold bind at 1, lift in Hr. rewrite Hlinked in Hr. cbn [negb pull_dryRun] in Hr.
  unfold try_catch, pull_steps in Hr. unfold bind at 1 in Hr.
  rewrite authenticate_exact, !bind_log in Hr. unfold bind at 1 in Hr.
  rewrite convertDocxToMarkdown_missing in Hr by assumption.
  subst r. unfold console_error, with_line, with_event.
  cbn [fst snd files console trace error_message].
  repeat split.
  - now rewrite <- !app_assoc.
  - apply last_snoc.
Qed.

(** A pull of the linked sample chapter in the world without Pandoc. *)
Lemma pull_without_pandoc_witness :
  let r := pullCommand no_pandoc_world "content/ch1.md" {| pull_dryRun := false |}
             sample_state in
  r.2 = Returned tt
  /\ files r.1 = files sample_state
  /\ trace r.1 = trace sample_state ++ [EvReadFile MANIFEST_FILE; EvAuthenticate;
                                        EvExec "pandoc --version"]
  /\ last (console r.1) = Some (LogError ("✗ Error: " +:+ not_installed)).
Proof.
  apply (pull_without_pandoc no_pandoc_world "content/ch1.md" sample_state sample_manifest
           (JStr "abc123")).
  - now exists "Command failed: pandoc --version".
  - vm_compute. reflexivity.
  - reflexivity.
Defined.

(** ** Steps that create nothing *)

Lemma quiet_refl s : quiet_since s s.
Proof. split; [reflexivity|]. exists []. now rewrite app_nil_r. Qed.

Lemma holds_only_prints {A} s0 (m : M A) :
  only_prints m -> holds_through (quiet_since s0) m.
Proof.
  intros Hm s (Hf & steps & Ht & Hq). destruct (Hm s) as [H1 H2].
  split; [congruence|]. exists steps. split; [congruence|assumption].
Qed.

Lemma holds_emit s0 e : quiet_event e = true -> holds_through (quiet_since s0) (emit e).
Proof.
  intros He s (Hf & steps & Ht & Hq). split; [exact Hf|].
  exists (steps ++ [e]). cbn [emit fst with_event trace]. split.
  - now rewrite Ht, app_assoc.
  - rewrite forallb_app, Hq. cbn. now rewrite He.
Qed.

Lemma holds_bind {A B} (I : state -> Prop) (m : M A) (k : A -> M B) :
  holds_through I m ->
  (forall s a, I s -> (m s).2 = Returned a -> holds_through I (k a)) ->
  holds_through I (bind m k).
Proof.
  intros Hm Hk s Hs. unfold bind. specialize (Hm s Hs). specialize (Hk s).
  destruct (m s) as [s1 [a|e]]; cbn [fst snd] in *; [|exact Hm].
  now apply (Hk a Hs eq_refl).
Qed.

Lemma holds_bind_any {A B} (I : state -> Prop) (m : M A) (k : A -> M B) :
  holds_through I m -> (forall a, holds_through I (k a)) -> holds_through I (bind m k).
Proof. intros Hm Hk. apply holds_bind; auto. Qed.

Lemma holds_try_catch {A} (I : state -> Prop) (m : M A) h :
  holds_through I m -> (forall e, holds_through I (h e)) ->
  holds_through I (try_catch m h).
Proof.
  intros Hm Hh s Hs. unfold try_catch. specialize (Hm s Hs).
  destruct (m s) as [s1 [a|e]]; cbn [fst] in *; [exact Hm|now apply Hh].
Qed.

Lemma holds_when (I : state -> Prop) b m :
  holds_through I m -> holds_through I (when b m).
Proof. destruct b; [auto|now intros _ s Hs]. Qed.

Ltac quiet :=
  repeat match goal with
    | |- holds_through _ (bind _ _) => apply (holds_bind_any (quiet_since _)); [|intros ?]
    | |- holds_through _ (emit _) => apply holds_emit; reflexivity
    | |- holds_through _ (when _ _) => apply (holds_when (quiet_since _))
    | |- holds_through _ (match ?x with _ => _ end) => destruct x
    | |- holds_through _ (if ?b then _ else _) => destruct b
    | |- holds_through _ _ => apply holds_only_prints; solve [prints]
    end.

Lemma quiet_authenticate s0 w : holds_through (quiet_since s0) (authenticate w).
Proof.
  unfold authenticate.
  apply (holds_bind_any (quiet_since _)); [quiet|intros _].
  apply (holds_bind_any (quiet_since _)); [quiet|intros _].
  apply (holds_bind_any (quiet_since _)); [|intros _; quiet].
  apply holds_only_prints.
  induction (auth_lines w) as [|l ls IH]; cbn [fold_right]; prints.
Qed.

Lemma quiet_convertMarkdownToDocx s0 w mdPath refdocPath :
  holds_through (quiet_since s0) (convertMarkdownToDocx w mdPath refdocPath).
Proof.
  unfold convertMarkdownToDocx, checkPandocInstalled, run_conversion, child_exec,
    fs_mkdir.
  quiet.
Qed.

Lemma quiet_formatDocument s0 w auth docId :
  holds_through (quiet_since s0) (formatDocument w auth docId).
Proof. unfold formatDocument. quiet. Qed.

Lemma quiet_loadManifest s0 w : holds_through (quiet_since s0) (loadManifest w).
Proof.
  intros s Hs. rewrite loadManifest_effect.
  now apply (holds_emit s0 (EvReadFile MANIFEST_FILE) eq_refl s).
Qed.



(** ** [init] *)

Lemma init_directory_keeps F w dir : keeps_files_at F (init_directory w dir).
Proof.
  unfold init_directory, fs_mkdir.
  apply keeps_try_catch; [|intros e; destruct (decide _); [apply keeps_ret|apply keeps_throw]].
  apply keeps_bind_any; [|intros _; apply keeps_log].
  apply keeps_bind_any; [apply keeps_emit|intros _].
  destruct (mkdir_error w dir); [apply keeps_throw|apply keeps_ret].
Qed.

Lemma for_each_keeps {A} F (f : A -> M unit) l :
  (forall x, keeps_files_at F (f x)) -> keeps_files_at F (for_each f l).
Proof.
  intros Hf. induction l as [|x l IH]; cbn [for_each]; [apply keeps_ret|].
  apply keeps_bind_any; [apply Hf|intros _; exact IH].
Qed.

Lemma init_directory_returns w dir s :
  (forall e, mkdir_error w dir = Some e -> error_code e = Some "EEXIST") ->
  (init_directory w dir s).2 = Returned tt.
Proof.
  intros Hd. unfold init_directory, try_catch, fs_mkdir, bind, emit.
  destruct (mkdir_error w dir) as [e|] eqn:He; [|reflexivity].
  cbn [throw]. now rewrite decide_True by auto.
Qed.

Lemma for_each_returns {A} (f : A -> M unit) l s :
  (forall x s, (f x s).2 = Returned tt) -> (for_each f l s).2 = Returned tt.
Proof.
  intros Hf. revert s. induction l as [|x l IH]; intros s; cbn [for_each]; [reflexivity|].
  unfold bind. specialize (Hf x s). destruct (f x s) as [s1 o]. cbn [snd] in Hf.
  subst o. apply IH.
Qed.

Lemma files_after {A B} F (m : M A) (k : A -> M B) s :
  files (m s).1 = F -> (forall a, keeps_files_at F (k a)) -> files (bind m k s).1 = F.
Proof.
  intros Hm Hk. unfold bind. destruct (m s) as [s1 [a|e]]; cbn [fst] in *; [|exact Hm].
  now apply Hk.
Qed.



(** ** [status] *)

Lemma only_prints_for_each {A} (f : A -> M unit) l :
  (forall x, only_prints (f x)) -> only_prints (for_each f l).
Proof.
  intros Hf. induction l as [|x l IH]; cbn [for_each]; [apply only_prints_ret|].
  apply only_prints_bind; [apply Hf|intros _; exact IH].
Qed.

Lemma only_prints_status_entry toLocaleString kv :
  only_prints (status_entry toLocaleString kv).
Proof. unfold status_entry. prints. Qed.

(** X14: [status] is read-only: whatever the manifest holds and however
    the command ends, no file changes and the manifest read is the only step
    it takes. *)
Theorem status_is_read_only (toLocaleString : jsval -> string) (w : world) (s : state) :
  let r := statusCommand toLocaleString w s in
  files r.1 = files s /\ trace r.1 = trace s ++ [EvReadFile MANIFEST_FILE].
Proof.
  cbv zeta. unfold statusCommand. rewrite bind_log.
  apply (run_after_load w _ (with_line _ s)). intros manifest.
  apply only_prints_bind; [prints|intros filesv].
  apply only_prints_bind; [prints|intros entries].
  destruct (length entries =? 0)%nat; [prints|].
  apply only_prints_bind; [prints|intros _].
  apply only_prints_for_each, only_prints_status_entry.
Qed.

Lemma status_entry_prints toLocaleString filePath info s :
  info <> JNull ->
  let r := status_entry toLocaleString (filePath, info) s in
  r.2 = Returned tt
  /\ (forall l, l ∈ console s -> l ∈ console r.1)
  /\ Log ("  " +:+ filePath) ∈ console r.1
  /\ Log ("    Google Doc: " +:+ to_String_js (gdocId_of (Some info))) ∈ console r.1.
Proof.
  intros Hinfo. cbv zeta.
  assert (Hget : forall k, exists v, get_prop (Some info) k = Returned v).
  { intros k. destruct info; try contradiction; now eexists. }
  unfold status_entry, gdocId_of. cbn [fst snd].
  destruct (Hget "gdocId") as [g ->]. destruct (Hget "lastSync") as [t ->].
  unfold bind, lift, console_log, with_line. cbn [fst snd console].
  split; [reflexivity|]. rewrite <- !app_assoc. cbn [app].
  split; [|split].
  - intros l Hl. apply elem_of_app. now left.
  - apply elem_of_app. right. left.
  - apply elem_of_app. right. right. left.
Qed.

Lemma status_entries_print toLocaleString entries s :
  Forall (fun kv => snd kv <> JNull) entries ->
  let r := for_each (status_entry toLocaleString) entries s in
  r.2 = Returned tt
  /\ (forall l, l ∈ console s -> l ∈ console r.1)
  /\ forall filePath info, (filePath, info) ∈ entries ->
       Log ("  " +:+ filePath) ∈ console r.1
       /\ Log ("    Google Doc: " +:+ to_String_js (gdocId_of (Some info))) ∈ console r.1.
Proof.
  intros Hall. revert s. cbv zeta.
  induction Hall as [|[f info] entries Hinfo Hall IH]; intros s; cbn [for_each].
  - split; [reflexivity|]. split; [auto|]. intros f info Hin. inversion Hin.
  - cbn [snd] in Hinfo.
    destruct (status_entry_prints toLocaleString f info s Hinfo) as (Ho & Hkeep & H1 & H2).
    unfold bind. destruct (status_entry toLocaleString (f, info) s) as [s1 o].
    cbn [fst snd] in *. subst o.
    destruct (IH s1) as (Ho' & Hkeep' & Hall').
    split; [exact Ho'|]. split; [auto|].
    intros f' info' [[= -> ->]|Hin]%elem_of_cons; auto.
Qed.

Lemma statusCommand_prints toLocaleString (w : world) (s : state) (manifest : json)
    (entries : list (string * json)) :
  (loadManifest w s).2 = Returned manifest ->
  get_prop (Some manifest) "files" = Returned (Some (JObj entries)) ->
  Forall (fun kv => snd kv <> JNull) entries ->
  let r := statusCommand toLocaleString w s in
  r.2 = Returned tt
  /\ (entries = [] -> Log "No files linked yet." ∈ console r.1)
  /\ forall filePath info, (filePath, info) ∈ entries ->
       Log ("  " +:+ filePath) ∈ console r.1
       /\ Log ("    Google Doc: " +:+ to_String_js (gdocId_of (Some info))) ∈ console r.1.
Proof.
  intros Hload Hfiles Hall. cbv zeta.
  remember (statusCommand toLocaleString w s) as r eqn:Hr.
  unfold statusCommand in Hr. rewrite bind_log in Hr.
  rewrite (bind_load w _ _ s) in Hr by reflexivity. rewrite Hload in Hr.
  unfold bind at 1, lift in Hr. rewrite Hfiles in Hr.
  unfold bind at 1 in Hr. cbn [object_entries] in Hr.
  destruct entries as [|kv entries].
  - cbn [length Nat.eqb] in Hr. subst r. split; [reflexivity|]. split.
    + intros _. cbn. apply elem_of_app. left. apply elem_of_app. right. left.
    + intros f info Hin. inversion Hin.
  - cbn [length Nat.eqb] in Hr. rewrite bind_log in Hr. subst r.
    destruct (status_entries_print toLocaleString (kv :: entries)
                (with_line (Log ("Linked files:" +:+ nl))
                   (with_event (EvReadFile MANIFEST_FILE)
                      (with_line (Log ("draftsync status" +:+ nl)) s))) Hall)
      as (Ho & _ & Hin).
    split; [exact Ho|]. split; [discriminate|exact Hin].
Qed.

(** X15: [status] lists every entry: when the manifest loads, its [files]
    is an object and no entry is [null], the command returns, having printed
    for every entry the path and the document id of the entry ([undefined]
    for an entry without one); with no entry at all it prints that no files
    are linked yet. *)
Theorem status_lists_every_entry (toLocaleString : jsval -> string) (w : world)
    (s : state) (manifest : json) (entries : list (string * json)) :
  (loadManifest w s).2 = Returned manifest ->
  get_prop (Some manifest) "files" = Returned (Some (JObj entries)) ->
  Forall (fun kv => snd kv <> JNull) entries ->
  let r := statusCommand toLocaleString w s in
  r.2 = Returned tt
  /\ (entries = [] -> Log "No files linked yet." ∈ console r.1)
  /\ forall filePath info, (filePath, info) ∈ entries ->
       Log ("  " +:+ filePath) ∈ console r.1
       /\ Log ("    Google Doc: " +:+ to_String_js (gdocId_of (Some info))) ∈ console r.1.
Proof. exact (statusCommand_prints toLocaleString w s manifest entries). Qed.

(** [status] in the sample project. *)
Lemma status_lists_every_entry_witness :
  let r := statusCommand to_String_js sample_world sample_state in
  r.2 = Returned tt
  /\ Log "  content/ch1.md" ∈ console r.1
  /\ Log "    Google Doc: abc123" ∈ console r.1.
Proof.
  destruct (status_lists_every_entry to_String_js sample_world sample_state sample_manifest
              [("content/ch1.md",
                JObj [("gdocId", JStr "abc123");
                      ("lastSync", JStr "2025-01-01T00:00:00.000Z")])])
    as (Ho & _ & Hin).
  - vm_compute. reflexivity.
  - reflexivity.
  - repeat constructor. discriminate.
  - split; [exact Ho|].
    apply (Hin "content/ch1.md"
             (JObj [("gdocId", JStr "abc123");
                    ("lastSync", JStr "2025-01-01T00:00:00.000Z")])).
    left.
Defined.

(** X16: a directory without a manifest is an empty project, not an
    error: [loadManifest] of the CLI reads nothing else and returns a
    manifest whose [files] is the empty object (where [readManifest] of the
    Drive module returns the empty object), and [status] returns, saying
    that no files are linked yet. *)
Theorem no_manifest_is_an_empty_project (toLocaleString : jsval -> string) (w : world)
    (s : state) :
  files s !! MANIFEST_FILE = None ->
  let r := statusCommand toLocaleString w s in
  loadManifest w s =
  (with_event (EvReadFile MANIFEST_FILE) s, Returned (JObj [("files", JObj [])]))
  /\ r.2 = Returned tt
  /\ Log "No files linked yet." ∈ console r.1.
Proof.
  intros Hf. cbv zeta.
  assert (Hload : loadManifest w s =
                  (with_event (EvReadFile MANIFEST_FILE) s,
                   Returned (JObj [("files", JObj [])]))).
  { unfold loadManifest, try_catch, bind, fs_readFile.
    rewrite files_with_event, Hf. cbn [error_code]. now rewrite decide_True. }
  split; [exact Hload|].
  destruct (statusCommand_prints toLocaleString w s (JObj [("files", JObj [])]) [])
    as (Ho & Hnone & _).
  - now rewrite Hload.
  - reflexivity.
  - constructor.
  - split; [exact Ho|now apply Hnone].
Qed.

(** [status] on an empty disk. *)
Lemma no_manifest_is_an_empty_project_witness :
  let r := statusCommand to_String_js sample_world (state_with ∅) in
  loadManifest sample_world (state_with ∅) =
  (with_event (EvReadFile MANIFEST_FILE) (state_with ∅),
   Returned (JObj [("files", JObj [])]))
  /\ r.2 = Returned tt
  /\ Log "No files linked yet." ∈ console r.1.
Proof.
  apply (no_manifest_is_an_empty_project to_String_js sample_world (state_with ∅)).
  reflexivity.
Defined.



(** ** Helpers of the builds *)



Lemma first_accessible_finds paths s :
  let r := first_accessible paths s in
  r.1 = s
  /\ match r.2 with
     | Returned (Some path) =>
         exists before after,
           paths = before ++ path :: after
           /\ is_Some (files s !! path)
           /\ forall q, q ∈ before -> files s !! q = None
     | Returned None => forall q, q ∈ paths -> files s !! q = None
     | Threw _ => False
     end.
Proof.
  cbv zeta. induction paths as [|path rest IH]; cbn [first_accessible].
  - split; [reflexivity|]. intros q Hq. inversion Hq.
  - unfold try_catch, bind, fs_access, ret.
    destruct (files s !! path) as [n|] eqn:Hp; cbn [fst snd].
    + split; [reflexivity|]. exists [], rest. split; [reflexivity|]. split; [now exists n|].
      intros q Hq. inversion Hq.
    + destruct IH as [Hs IH]. split; [exact Hs|].
      destruct (first_accessible rest s).2 as [[found|]|e]; [| |exact IH].
      * destruct IH as (before & after & -> & Hfound & Hbefore).
        exists (path :: before), after. split; [reflexivity|]. split; [exact Hfound|].
        intros q [->|Hq]%elem_of_cons; auto.
      * intros q [->|Hq]%elem_of_cons; auto.
Qed.

(** X19: [findKindlePreviewer] never throws and changes nothing: it
    returns the first of its three candidate paths at which something
    exists (every candidate before it being absent), and [null] exactly when
    none of them exists. *)
Theorem findKindlePreviewer_first_installed (s : state) :
  let r := findKindlePreviewer s in
  r.1 = s
  /\ match r.2 with
     | Returned (Some path) =>
         exists before after,
           possiblePaths = before ++ path :: after
           /\ is_Some (files s !! path)
           /\ forall q, q ∈ before -> files s !! q = None
     | Returned None => forall q, q ∈ possiblePaths -> files s !! q = None
     | Threw _ => False
     end.
Proof. exact (first_accessible_finds possiblePaths s). Qed.

(** X20: [validateEpub] never throws, whatever epubcheck does: it runs
    the one epubcheck command on the quoted path, touches no file, and
    returns a result that is valid exactly when the command succeeded; a
    valid result has no errors, and the errors of an invalid one are lines of
    what the failed command wrote to stderr, none of them empty. *)
Theorem validateEpub_reports (failure_stderr : string -> option string) (w : world)
    (epubPath : string) (s : state) :
  let command := "epubcheck " +:+ dq +:+ epubPath +:+ dq in
  let r := validateEpub failure_stderr w epubPath s in
  files r.1 = files s
  /\ trace r.1 = trace s ++ [EvExec command]
  /\ exists result,
       r.2 = Returned result
       /\ (valid result = true
           <-> (exists stdout stderr, exec w command = ExecOk stdout stderr))
       /\ (valid result = true -> errors result = [])
       /\ (EmptyString ∉ errors result)
       /\ forall line, line ∈ errors result ->
            exists stderr, failure_stderr command = Some stderr
                           /\ line ∈ split_lines stderr.
Proof.
  cbv zeta. unfold validateEpub. rewrite bind_log.
  unfold child_exec, bind, emit, ret.
  destruct (exec w _) as [so se|message] eqn:He.
  - cbn. split; [reflexivity|]. split; [reflexivity|]. eexists. split; [reflexivity|].
    cbn [valid errors]. repeat split; eauto.
    + apply not_elem_of_nil.
    + intros line Hl. inversion Hl.
  - cbn [fst snd files trace with_event with_line].
    split; [reflexivity|]. split; [reflexivity|]. eexists. split; [reflexivity|].
    cbn [valid errors]. split; [|split; [discriminate|]].
    { split; [discriminate|]. intros (so & se & H). discriminate H. }
    destruct (failure_stderr _) as [stderr|]; [|split; [apply not_elem_of_nil|]].
    + destruct (truthy_string (Some stderr)); [|split; [apply not_elem_of_nil|]].
      * split.
        -- rewrite list_elem_of_In, filter_In. intros [_ H]. discriminate H.
        -- intros line. rewrite list_elem_of_In, filter_In, <- list_elem_of_In.
           intros [Hl _]. now exists stderr.
      * intros line Hl. inversion Hl.
    + intros line Hl. inversion Hl.
Qed.
